(** * The Lambda supervisor layer of SCAR

    A shallow embedding of [scar/providers/aws/lambdalayers.py]: the
    [Layer] wrapper around the Lambda client, the helpers that download
    and repackage the supervisor release, and the [LambdaLayers]
    reconciler.  Python dictionaries are finite maps, exceptions are an
    explicit result type, and every effect (registry calls, file system,
    network, logging) goes through one state-and-exception monad. *)

From Stdlib Require Import ZArith String Ascii.
From stdpp Require Import base option list gmap strings fin_maps pretty.

Open Scope string_scope.
Open Scope list_scope.
Open Scope Z_scope.

(** ** Python values *)

(** The bytes of a file: opaque data, or the encoding of a zip archive
    with the given members (name, bytes), in archive order.  A member
    whose name ends with a slash is a directory entry. *)
#[warnings="-register-all"]
Inductive content : Type :=
  | Data (bytes : string)
  | Archive (members : list (string * content)).

(** Scalar values found in registry records and keyword arguments. *)
Inductive atom : Type :=
  | ANone
  | AInt (z : Z)
  | AStr (s : string)
  | ABytes (c : content).

(** A value is a scalar or a dictionary of scalars; the records of the
    registry and the keyword arguments of its calls are dictionaries of
    such values. *)
Inductive pyval : Type :=
  | PAtom (a : atom)
  | PDict (d : gmap string atom).

Coercion PAtom : atom >-> pyval.

Abbreviation dict := (gmap string pyval).

Definition content_eq_dec : ∀ c1 c2 : content, {c1 = c2} + {c1 ≠ c2}.
Proof.
  fix IH 1. intros [a|l1] [b|l2]; try (right; congruence).
  - destruct (decide (a = b)); [left|right]; congruence.
  - assert (Hl : {l1 = l2} + {l1 ≠ l2}).
    { revert l2. induction l1 as [|[n1 x1] t1 IHl]; intros [|[n2 x2] t2];
        try (right; congruence); [left; reflexivity|].
      destruct (decide (n1 = n2)); [|right; congruence].
      destruct (IH x1 x2); [|right; congruence].
      destruct (IHl t2); [left|right]; congruence. }
    destruct Hl; [left|right]; congruence.
Defined.

#[global] Instance content_eq : EqDecision content := content_eq_dec.
#[global] Instance atom_eq : EqDecision atom.
Proof. solve_decision. Defined.
#[global] Instance pyval_eq : EqDecision pyval.
Proof. solve_decision. Defined.

(** Python's [==] on these values is structural equality. *)
Definition py_eq (a b : pyval) : bool := bool_decide (a = b).

(** Truth value of an object: [None], zero, and empty strings, byte
    strings and dictionaries are false. *)
Definition py_truthy (v : pyval) : bool :=
  match v with
  | PAtom ANone => false
  | PAtom (AInt z) => negb (z =? 0)
  | PAtom (AStr s) => negb (String.eqb s "")
  | PAtom (ABytes (Data s)) => negb (String.eqb s "")
  | PAtom (ABytes (Archive _)) => true
  | PDict d => negb (bool_decide (d = ∅))
  end.

(** ** Exceptions and the effect monad *)

(** The exceptions of Python and of its [zipfile] and [shutil] that the
    module can meet, and two error kinds of the design's taxonomy:
    [FetchError], the failure of the remote retrieval, and
    [ArchiveFormatError]. *)

Inductive exn : Type :=
  | KeyError (key : string)
  | ValueError (what : string)
  | TypeError (what : string)
  | AttributeError (what : string)
  | UnboundLocalError (var : string)
  | BadZipFile
  | FetchError (url : string)
  | ArchiveFormatError
  | FileNotFoundError (path : list string)
  | FileExistsError (path : list string)
  | NotADirectoryError (path : list string)
  | IsADirectoryError (path : list string)
  | ShutilError (what : string)
  | ClientError (what : string).

Inductive result (A : Type) : Type :=
  | Ok (a : A)
  | Raise (e : exn).

Arguments Ok {A} a.
Arguments Raise {A} e.

(** ** Strings and paths *)

(** [s.split(sep, 1)]: the text before the first separator and the text
    after it, or the whole string alone when there is no separator. *)
Fixpoint split1 (sep : ascii) (s : string) : list string :=
  match s with
  | EmptyString => [EmptyString]
  | String c rest =>
      if Ascii.eqb c sep then [EmptyString; rest]
      else match split1 sep rest with
           | [hd] => [String c hd]
           | hd :: tl => String c hd :: tl
           | [] => []
           end
  end.

(** [s.split(sep)]: all the pieces between separators. *)
Fixpoint split_all (sep : ascii) (s : string) : list string :=
  match s with
  | EmptyString => [EmptyString]
  | String c rest =>
      if Ascii.eqb c sep then EmptyString :: split_all sep rest
      else match split_all sep rest with
           | hd :: tl => String c hd :: tl
           | [] => [String c EmptyString]
           end
  end.

(** [s.startswith(p)]. *)
Definition startswith (s p : string) : bool := String.prefix p s.

Fixpoint endswith_slash (s : string) : bool :=
  match s with
  | EmptyString => false
  | String c EmptyString => Ascii.eqb c "/"
  | String _ rest => endswith_slash rest
  end.

Fixpoint join_with (sep : string) (l : list string) : string :=
  match l with
  | [] => EmptyString
  | [x] => x
  | x :: rest => x +:+ sep +:+ join_with sep rest
  end.

(** A path of the file system, as its components from the root. *)
Abbreviation path := (list string).

(** Resolution of a component against a path: empty and [.] components
    stay in place, [..] goes to the parent. *)
Definition enter (p : path) (c : string) : path :=
  if String.eqb c "" || String.eqb c "." then p
  else if String.eqb c ".." then removelast p
  else p ++ [c].

(** [os.path.join(base, piece1, ...)], resolved: a piece that starts
    with a slash restarts from the root. *)
Definition join_paths (base : path) (pieces : list string) : path :=
  fold_left (λ p piece,
    fold_left enter (split_all "/" piece)
              (if startswith piece "/" then [] else p)) pieces base.

Definition parent_dir (p : path) : path := removelast p.
Definition basename (p : path) : string := List.last p "".

Fixpoint is_prefix (p q : path) : bool :=
  match p, q with
  | [], _ => true
  | a :: p', b :: q' => String.eqb a b && is_prefix p' q'
  | _ :: _, [] => false
  end.

Fixpoint strip_prefix (p q : path) : option path :=
  match p, q with
  | [], _ => Some q
  | a :: p', b :: q' => if String.eqb a b then strip_prefix p' q' else None
  | _ :: _, [] => None
  end.

(** ** The collaborators that are not part of this module *)

(** Helpers of [scar.utils] and of Python that the module calls and that
    are defined elsewhere.  [compare_versions] is
    [StrUtils.compare_versions]: negative when its first argument is the
    lower version.  [int_of_str] is the built-in [int] on a string. *)
Class Utils : Type := {
  GITHUB_USER : string;
  GITHUB_SUPERVISOR_PROJECT : string;
  get_source_code_url : string → string → string → string;
  compare_versions : pyval → string → result Z;
  int_of_str : string → option Z;
}.

(** The [LambdaClient] handed to [Layer]: the three calls of the
    platform registry, over the client's own state.  Listing reads the
    registry; publishing and deleting may change it. *)
Class LambdaClient (C : Type) : Type := {
  list_layers : C → result (list dict);
  publish_layer_version : dict → C → result pyval * C;
  delete_layer_version : dict → C → result pyval * C;
}.

(** A call made on the client, with its keyword arguments. *)
Inductive call : Type :=
  | ListLayers
  | PublishLayerVersion (kwargs : dict)
  | DeleteLayerVersion (kwargs : dict).

Definition is_publish (c : call) : bool :=
  match c with PublishLayerVersion _ => true | _ => false end.

Definition is_delete (c : call) : bool :=
  match c with DeleteLayerVersion _ => true | _ => false end.

(** A node of the file system. *)
Inductive node : Type :=
  | File (c : content)
  | Dir.

Abbreviation filesystem := (gmap path node).

(** Everything the module acts on: the artifact repository (URL to
    bytes), the local file system with the counter that names fresh
    temporary directories, the registry client with the calls made on
    it so far, and the messages sent to the logger. *)
Record world (C : Type) : Type := World {
  remote : gmap string content;
  fs : filesystem;
  tmp_seq : nat;
  client : C;
  calls : list call;
  log : list string;
}.

Arguments World {C}.
Arguments remote {C}.
Arguments fs {C}.
Arguments tmp_seq {C}.
Arguments client {C}.
Arguments calls {C}.
Arguments log {C}.

Definition set_fs {C : Type} (f : filesystem) (w : world C) : world C :=
  World (remote w) f (tmp_seq w) (client w) (calls w) (log w).

(** A computation that may raise and that updates the world; what was
    done before an exception stays done. *)
Definition M (C A : Type) : Type := world C → result A * world C.

Definition ret {C A : Type} (a : A) : M C A := λ w, (Ok a, w).
Definition raise {C A : Type} (e : exn) : M C A := λ w, (Raise e, w).
Definition bind {C A B : Type} (m : M C A) (k : A → M C B) : M C B :=
  λ w, match m w with
       | (Ok a, w') => k a w'
       | (Raise e, w') => (Raise e, w')
       end.
Definition lift {C A : Type} (r : result A) : M C A := λ w, (r, w).

Declare Scope py_scope.
Delimit Scope py_scope with py.
Notation "'let*' x ':=' m 'in' k" := (bind m (λ x, k))
  (at level 10, x name, m at level 100, k at level 200) : py_scope.
Notation "'let*' ' pat ':=' m 'in' k" :=
  (bind m (λ x, match x with pat => k end))
  (at level 10, pat pattern, m at level 100, k at level 200) : py_scope.
Notation "'run' m 'in' k" := (bind m (λ _, k))
  (at level 10, m at level 100, k at level 200) : py_scope.
Open Scope py_scope.

(** [for x in xs: body(x)]. *)
Fixpoint for_each {C A : Type} (xs : list A) (body : A → M C unit) : M C unit :=
  match xs with
  | [] => ret tt
  | x :: rest => run body x in for_each rest body
  end.

(** The world after a message was sent to the logger. *)
Definition logged {C : Type} (msg : string) (w : world C) : world C :=
  World (remote w) (fs w) (tmp_seq w) (client w) (calls w) (log w ++ [msg]).

(** [logger.info(msg)]. *)
Definition logger_info {C : Type} (msg : string) : M C unit :=
  λ w, (Ok tt, logged msg w).

(** ** Dictionary access *)

(** [d[key]]. *)
Definition py_getitem (d : dict) (key : string) : result pyval :=
  match d !! key with
  | Some v => Ok v
  | None => Raise (KeyError key)
  end.

(** [d.get(key, default)] on a record. *)
Definition dict_get (d : dict) (key : string) (dflt : pyval) : pyval :=
  default dflt (d !! key).

(** [d.get(key, default)] on any value: only dictionaries have [get]. *)
Definition py_get (v : pyval) (key : string) (dflt : atom) : result pyval :=
  match v with
  | PDict d => Ok (PAtom (default dflt (d !! key)))
  | PAtom _ => Raise (AttributeError "get")
  end.

Fixpoint contains_substring (p s : string) : bool :=
  String.prefix p s ||
  match s with
  | EmptyString => false
  | String _ rest => contains_substring p rest
  end.

(** [key in v]: membership in a dictionary, substring test on a string;
    other values are not containers of strings. *)
Definition py_in (key : string) (v : pyval) : result bool :=
  match v with
  | PDict d => Ok (bool_decide (is_Some (d !! key)))
  | PAtom (AStr s) => Ok (contains_substring key s)
  | PAtom _ => Raise (TypeError "in")
  end.

(** ** The file system, zip archives and the network *)

Definition is_dir (f : filesystem) (p : path) : bool :=
  match p with
  | [] => true
  | _ => match f !! p with Some Dir => true | _ => false end
  end.

Definition path_exists (f : filesystem) (p : path) : bool :=
  match p with
  | [] => true
  | _ => bool_decide (is_Some (f !! p))
  end.

(** [os.makedirs(p, exist_ok=True)]: every missing ancestor and [p]
    itself become directories; a file in the way is an error. *)
Fixpoint makedirs_from (at_ : path) (rest : path) (f : filesystem)
  : result filesystem :=
  match rest with
  | [] => Ok f
  | c :: rest' =>
      let q := at_ ++ [c] in
      match f !! q with
      | Some (File _) => Raise (NotADirectoryError q)
      | _ => makedirs_from q rest' (<[q := Dir]> f)
      end
  end.

Definition makedirs (p : path) (f : filesystem) : result filesystem :=
  makedirs_from [] p f.

(** [open(p, "wb").write(c)]: the parent must be a directory and [p]
    must not be one; a file already there is overwritten. *)
Definition write_file (p : path) (c : content) (f : filesystem)
  : result filesystem :=
  if negb (is_dir f (parent_dir p)) then
    if path_exists f (parent_dir p) then Raise (NotADirectoryError p)
    else Raise (FileNotFoundError p)
  else if is_dir f p then Raise (IsADirectoryError p)
  else Ok (<[p := File c]> f).

(** Where [ZipFile.extract] puts a member: empty, [.] and [..]
    components of the name are dropped. *)
Definition member_target (base : path) (name : string) : path :=
  base ++ filter (λ x, x ∉ [""; "."; ".."]) (split_all "/" name).

(** [ZipFile.extract] of one member below [base]: missing directories
    are created; a directory entry makes a directory, any other member
    writes its bytes. *)
Definition extract_member (base : path) (m : string * content)
    (f : filesystem) : result filesystem :=
  let target := member_target base m.1 in
  match makedirs (parent_dir target) f with
  | Raise e => Raise e
  | Ok f1 =>
      if endswith_slash m.1 then
        if is_dir f1 target then Ok f1
        else if path_exists f1 target then Raise (FileExistsError target)
        else Ok (<[target := Dir]> f1)
      else write_file target m.2 f1
  end.

(** [ZipFile.getinfo(name)]: with repeated names the last member wins. *)
Definition getinfo (members : list (string * content)) (name : string)
  : option (string * content) :=
  List.find (λ m, String.eqb m.1 name) (rev members).

(** The nodes at and below [src] go to the same places at and below
    [dst]; the other nodes stay. *)
Definition relocate (src dst : path) (f : filesystem) : filesystem :=
  list_to_map
    (omap (λ kv : path * node,
             match strip_prefix src kv.1 with
             | Some rel => Some (dst ++ rel, kv.2)
             | None => None
             end) (map_to_list f))
  ∪ filter (λ kv : path * node, is_prefix src kv.1 = false) f.

(** [shutil.move(src, dst)]: into [dst] when that is a directory,
    onto [dst] otherwise; a directory is moved with all it holds and
    the missing ancestors of its new place are created. *)
Definition shutil_move (src dst : path) (f : filesystem) : result filesystem :=
  match f !! src with
  | None => Raise (FileNotFoundError src)
  | Some nd =>
      if bool_decide (src = dst) then Ok f
      else
        let real_dst := if is_dir f dst then dst ++ [basename src] else dst in
        if is_dir f dst && path_exists f real_dst
        then Raise (ShutilError "Destination path already exists")
        else match nd with
             | File c =>
                 match write_file real_dst c f with
                 | Ok f1 => Ok (delete src f1)
                 | Raise e => Raise e
                 end
             | Dir =>
                 if path_exists f real_dst then Raise (FileExistsError real_dst)
                 else if is_prefix src real_dst
                 then Raise (ShutilError "Cannot move a directory into itself")
                 else match makedirs (parent_dir real_dst) f with
                      | Ok f1 => Ok (relocate src real_dst f1)
                      | Raise e => Raise e
                      end
             end
  end.

(** The files (not the directories) below [dir], with their paths
    relative to it. *)
Definition files_below (dir : path) (f : filesystem) : list (path * content) :=
  omap (λ kv : path * node,
          match kv.2, strip_prefix dir kv.1 with
          | File c, Some (x :: rel) => Some (x :: rel, c)
          | _, _ => None
          end) (map_to_list f).

Section Model.

Context `{U : Utils} {C : Type} `{LC : LambdaClient C}.

Definition get_fs : M C filesystem := λ w, (Ok (fs w), w).

Definition update_fs (op : filesystem → result filesystem) : M C unit :=
  λ w, match op (fs w) with
       | Ok f => (Ok tt, set_fs f w)
       | Raise e => (Raise e, w)
       end.

(** Modelled from the spec: [FileUtils.get_tmp_dir], the root of the
    temporary files ([{tmp-root}]). *)
Definition get_tmp_dir : path := ["tmp"].

(** Modelled from the spec: [FileUtils.create_tmp_dir().name], a
    directory of the workspace "created fresh per reconciliation
    attempt", below the temporary root. *)
Definition create_tmp_dir : M C path :=
  λ w, let p := get_tmp_dir ++ ["tmp" +:+ pretty (tmp_seq w)] in
       if negb (is_dir (fs w) get_tmp_dir) then (Raise (FileNotFoundError p), w)
       else if path_exists (fs w) p then (Raise (FileExistsError p), w)
       else (Ok p, World (remote w) (<[p := Dir]> (fs w)) (S (tmp_seq w))
                         (client w) (calls w) (log w)).

(** Modelled from the spec: [request.get_file], "a GET against that URL
    returns archive bytes"; the retrieval fails when the repository has
    nothing at the URL. *)
Definition get_file (url : string) : M C content :=
  λ w, match remote w !! url with
       | Some c => (Ok c, w)
       | None => (Raise (FetchError url), w)
       end.

(** [zipfile.ZipFile(io.BytesIO(data))]: the members, or [BadZipFile]
    when the bytes are not a zip archive. *)
Definition open_zip (data : content) : M C (list (string * content)) :=
  match data with
  | Archive members => ret members
  | Data _ => raise BadZipFile
  end.

(** [thezip.extract(name, base)]. *)
Definition zip_extract (members : list (string * content)) (name : string)
    (base : path) : M C unit :=
  match getinfo members name with
  | Some m => update_fs (extract_member base m)
  | None => raise (KeyError name)
  end.

(** Modelled from the spec: [FileUtils.get_all_files_in_directory],
    "every file found under" the directory. *)
Definition get_all_files_in_directory (dir : path) : M C (list path) :=
  let* f := get_fs in
  ret ((λ rc : path * content, dir ++ rc.1) <$> files_below dir f).

(** Modelled from the spec: [FileUtils.unzip_folder]: "if that file is
    itself an archive, expands it directly into" the destination. *)
Definition unzip_folder (zip_path dest : path) : M C unit :=
  let* f := get_fs in
  match f !! zip_path with
  | Some (File (Archive members)) =>
      for_each members (λ m, update_fs (extract_member dest m))
  | _ => ret tt
  end.

(** Modelled from the spec: [FileUtils.zip_folder]: "produces one archive
    from the complete [code_dir] tree, preserving relative paths, at
    the designated output path". *)
Definition zip_folder (zip_path folder : path) : M C unit :=
  let* f := get_fs in
  update_fs (write_file zip_path
    (Archive ((λ rc : path * content, (join_with "/" rc.1, rc.2))
                <$> files_below folder f))).

(** Modelled from the spec: [FileUtils.read_file(path, mode="rb")], the
    "content = archive bytes" of the file. *)
Definition read_file (p : path) : M C content :=
  let* f := get_fs in
  match f !! p with
  | Some (File c) => ret c
  | _ => raise (FileNotFoundError p)
  end.

(** Modelled from the spec: [FileUtils.delete_file], "delete the
    temporary output archive". *)
Definition delete_file (p : path) : M C unit :=
  let* f := get_fs in
  match f !! p with
  | Some (File _) => update_fs (λ f, Ok (delete p f))
  | _ => raise (FileNotFoundError p)
  end.

(** ** Module-level helpers *)

(** The two temporary folders: one for the extraction of the release,
    one for the code of the layer. *)
Definition _create_tmp_folders : M C (path * path) :=
  let* tmp_zip_folder := create_tmp_dir in
  let* layer_code_folder := create_tmp_dir in
  ret (tmp_zip_folder, layer_code_folder).

(** The test of the loop of [_download_supervisor] on an entry name:
    there is a first separator, and the text after it starts with
    [extra] or with [faassupervisor]. *)
Definition relevant (file : string) : bool :=
  match split1 "/" file with
  | [_; file_name] =>
      startswith file_name "extra" || startswith file_name "faassupervisor"
  | _ => false
  end.

(** The entries that the design calls relevant: the path after the
    top-level folder "begins with [extra/] or [faassupervisor/]". *)
Definition spec_relevant (file : string) : bool :=
  match split1 "/" file with
  | [_; file_name] =>
      startswith file_name "extra/" || startswith file_name "faassupervisor/"
  | _ => false
  end.

(** The entry name has a first separator, hence a top-level folder. *)
Definition has_top_folder (file : string) : Prop :=
  ∃ parent_folder file_name, split1 "/" file = [parent_folder; file_name].

Definition top_folder (file : string) : string :=
  match split1 "/" file with
  | parent_folder :: _ => parent_folder
  | [] => ""
  end.

(** The loop of [_download_supervisor].  [parent_folder] is the loop's
    variable of that name: unbound before the first iteration, and
    rebound by each one. *)
Fixpoint download_loop (thezip : list (string * content))
    (names : list string) (tmp_zip_path : path)
    (parent_folder : option string) : M C (option string) :=
  match names with
  | [] => ret parent_folder
  | file :: rest =>
      match split1 "/" file with
      | [parent_folder'; file_name] =>
          run (if startswith file_name "extra"
                  || startswith file_name "faassupervisor"
               then zip_extract thezip file tmp_zip_path
               else ret tt) in
          download_loop thezip rest tmp_zip_path (Some parent_folder')
      | _ => raise (ValueError "not enough values to unpack (expected 2, got 1)")
      end
  end.

(** Downloads the release, extracts what the loop selects and returns
    the value that the loop left in [parent_folder]. *)
Definition _download_supervisor (supervisor_version : string)
    (tmp_zip_path : path) : M C string :=
  let supervisor_zip_url :=
    get_source_code_url GITHUB_USER GITHUB_SUPERVISOR_PROJECT
                        supervisor_version in
  let* supervisor_zip := get_file supervisor_zip_url in
  let* thezip := open_zip supervisor_zip in
  let* parent_folder :=
    download_loop thezip (thezip.*1) tmp_zip_path None in
  match parent_folder with
  | Some parent_folder => ret parent_folder
  | None => raise (UnboundLocalError "parent_folder")
  end.

(** The URL that [_download_supervisor] asks for. *)
Definition supervisor_zip_url (supervisor_version : string) : string :=
  get_source_code_url GITHUB_USER GITHUB_SUPERVISOR_PROJECT supervisor_version.

(** The value of the loop variable [parent_folder] after the loop has
    gone through the names. *)
Definition loop_parent (names : list string) (before : option string)
  : option string :=
  fold_left (λ _ file, Some (top_folder file)) names before.

(** Moves the extracted [faassupervisor] folder to
    [python/faassupervisor] in the code of the layer. *)
Definition _copy_supervisor_files (parent_folder : string)
    (tmp_zip_path layer_code_path : path) : M C unit :=
  let supervisor_path :=
    join_paths tmp_zip_path [parent_folder; "faassupervisor"] in
  update_fs (shutil_move supervisor_path
               (join_paths layer_code_path ["python"; "faassupervisor"])).

(** Unzips every file found below the extracted [extra] folder into
    the code of the layer. *)
Definition _copy_extra_files (parent_folder : string)
    (tmp_zip_path layer_code_path : path) : M C unit :=
  let extra_folder_path := join_paths tmp_zip_path [parent_folder; "extra"] in
  let* files := get_all_files_in_directory extra_folder_path in
  for_each files (λ file_path, unzip_folder file_path layer_code_path).

Definition _create_layer_zip (layer_zip_path layer_code_path : path)
  : M C unit :=
  zip_folder layer_zip_path layer_code_path.

(** ** class Layer *)

(** A call on the client: it is recorded, and the client moves to
    its next state. *)
Definition record_call (c : call) (cl : C) (w : world C) : world C :=
  World (remote w) (fs w) (tmp_seq w) cl (calls w ++ [c]) (log w).

Definition call_client {A : Type} (c : call) (op : C → result A * C)
  : M C A :=
  λ w, let '(r, cl) := op (client w) in (r, record_call c cl w).

Definition client_list_layers : M C (list dict) :=
  call_client ListLayers (λ cl, (list_layers cl, cl)).

(** The world after the registry has been listed. *)
Definition listed (w : world C) : world C :=
  record_call ListLayers (client w) w.

(** A record answers to a name when its [LayerName], or the empty
    string when it has none, is that name: the test of [_find]. *)
Definition answers_to (name : pyval) (layer : dict) : Prop :=
  py_eq (dict_get layer "LayerName" (AStr "")) name = true.

(** No listed record answers to the name. *)
Definition absent (layers : list dict) (name : pyval) : Prop :=
  Forall (λ l, ¬ answers_to name l) layers.

(** The first listed record that answers to the name holds [info] as
    its [LatestMatchingVersion]. *)
Definition latest_info_is (layers : list dict) (name : pyval)
    (info : gmap string atom) : Prop :=
  ∃ pre layer post,
    layers = pre ++ layer :: post
    ∧ absent pre name
    ∧ answers_to name layer
    ∧ layer !! "LatestMatchingVersion" = Some (PDict info).

(** The scan of [_find]: the first record whose [LayerName], taken as
    the empty string when the record has none, equals the name; the
    empty dictionary when there is none. *)
Fixpoint find_in (layers : list dict) (layer_name : pyval) : dict :=
  match layers with
  | [] => ∅
  | layer :: rest =>
      if py_eq (dict_get layer "LayerName" (AStr "")) layer_name
      then layer
      else find_in rest layer_name
  end.

(** "Returns the layer information that matches the layer name
    passed." *)
Definition _find (layer_name : pyval) : M C dict :=
  let* layers := client_list_layers in
  ret (find_in layers layer_name).

(** "Creates a new layer with the arguments passed." *)
Definition create (kwargs : dict) : M C pyval :=
  call_client (PublishLayerVersion kwargs) (publish_layer_version kwargs).

(** Truth value of a record: a dictionary is true when not empty. *)
Definition dict_truthy (d : dict) : bool := negb (bool_decide (d = ∅)).

(** [Layer.exists]: "Checks layer name for existence." *)
Definition exists_ (layer_name : pyval) : M C bool :=
  let* layer := _find layer_name in
  if dict_truthy layer then ret true else ret false.

(** "Returns the latest matching version of the layer with
    'layer_name'." *)
Definition get_latest_layer_info (layer_name : pyval) : M C pyval :=
  let* layer := _find layer_name in
  if dict_truthy layer then lift (py_getitem layer "LatestMatchingVersion")
  else ret (PDict ∅).

(** The built-in [int]: integers are kept, strings and data bytes are
    parsed, anything else is a type error. *)
Definition py_int (v : pyval) : result Z :=
  match v with
  | PAtom (AInt z) => Ok z
  | PAtom (AStr s) | PAtom (ABytes (Data s)) =>
      match int_of_str s with
      | Some z => Ok z
      | None => Raise (ValueError "invalid literal for int()")
      end
  | PAtom (ABytes (Archive _)) => Raise (ValueError "invalid literal for int()")
  | PAtom ANone | PDict _ => Raise (TypeError "int()")
  end.

(** [Layer.delete]: "Deletes a layer."  The version number of the call
    is [int] of the [version] given, or else the [Version] of the
    latest information of the name, -1 when it has none. *)
Definition delete_ (kwargs : dict) : M C pyval :=
  let* name := lift (py_getitem kwargs "name") in
  let layer_args : dict := {[ "LayerName" := name ]} in
  let* layer_args :=
    if bool_decide (is_Some (kwargs !! "version")) then
      let* version := lift (py_getitem kwargs "version") in
      let* n := lift (py_int version) in
      ret (<[ "VersionNumber" := PAtom (AInt n) ]> layer_args)
    else
      let* version_info := get_latest_layer_info name in
      let* v := lift (py_get version_info "Version" (AInt (-1))) in
      ret (<[ "VersionNumber" := v ]> layer_args) in
  call_client (DeleteLayerVersion layer_args) (delete_layer_version layer_args).

(** ** class LambdaLayers *)

(** The object after [__init__]: the layer name, the supervisor
    version and the license information read from [resources_info]. *)
Record LambdaLayers : Type := {
  layer_name : string;
  supervisor_version : string;
  license_info : pyval;
}.

(** The keyword arguments of the publication. *)
Definition _get_supervisor_layer_props (self : LambdaLayers)
    (layer_zip_path : path) : M C dict :=
  let* zip_file := read_file layer_zip_path in
  ret ({[ "LayerName" := PAtom (AStr (layer_name self));
          "Description" := PAtom (AStr (supervisor_version self));
          "Content" := PDict {[ "ZipFile" := ABytes zip_file ]};
          "LicenseInfo" := license_info self ]} : dict).

(** The place of the output archive: [{layer_name}.zip] in the
    temporary root. *)
Definition layer_zip_path_of (self : LambdaLayers) : path :=
  join_paths get_tmp_dir [layer_name self +:+ ".zip"].

(** The body shared by creation and update: fetch, assemble, zip,
    publish, and delete the output archive. *)
Definition _create_layer (self : LambdaLayers) : M C unit :=
  let* '(tmp_zip_path, layer_code_path) := _create_tmp_folders in
  let layer_zip_path := layer_zip_path_of self in
  let* parent_folder :=
    _download_supervisor (supervisor_version self) tmp_zip_path in
  run _copy_supervisor_files parent_folder tmp_zip_path layer_code_path in
  run _copy_extra_files parent_folder tmp_zip_path layer_code_path in
  run _create_layer_zip layer_zip_path layer_code_path in
  let* props := _get_supervisor_layer_props self layer_zip_path in
  run create props in
  delete_file layer_zip_path.

(** The steps of [_create_layer] that come before the publication:
    from the temporary folders to the properties of the layer. *)
Definition package_layer (self : LambdaLayers) : M C dict :=
  let* '(tmp_zip_path, layer_code_path) := _create_tmp_folders in
  let layer_zip_path := layer_zip_path_of self in
  let* parent_folder :=
    _download_supervisor (supervisor_version self) tmp_zip_path in
  run _copy_supervisor_files parent_folder tmp_zip_path layer_code_path in
  run _copy_extra_files parent_folder tmp_zip_path layer_code_path in
  run _create_layer_zip layer_zip_path layer_code_path in
  _get_supervisor_layer_props self layer_zip_path.

(** Between two worlds, exactly one call was made on the client: the
    publication of the layer of [self] with the desired version as its
    description. *)
Definition publishes_once (self : LambdaLayers) (w w' : world C) : Prop :=
  ∃ props : dict,
    calls w' = calls w ++ [PublishLayerVersion props]
    ∧ props !! "LayerName" = Some (PAtom (AStr (layer_name self)))
    ∧ props !! "Description" = Some (PAtom (AStr (supervisor_version self)))
    ∧ client w' = (publish_layer_version props (client w)).2.

(** Between two worlds, no call was made and the client did not move. *)
Definition no_call (w w' : world C) : Prop :=
  calls w' = calls w ∧ client w' = client w.

(** What a create or update flow started in [w] has done when it ends
    as [r]: it has published once, which is the case whenever it
    returns, or it has raised without any call. *)
Definition flow_result (self : LambdaLayers) (w : world C)
    (r : result unit * world C) : Prop :=
  (r.1 = Ok tt → publishes_once self w r.2)
  ∧ (publishes_once self w r.2 ∨ (no_call w r.2 ∧ ∃ e, r.1 = Raise e)).

(** A computation that leaves the client, its calls and the log alone. *)
Definition local {A : Type} (m : M C A) : Prop :=
  ∀ w, client (m w).2 = client w ∧ calls (m w).2 = calls w
       ∧ log (m w).2 = log w.

(** The shape shared by the create flow and the update flow:
    [_create_layer] between two messages. *)
Definition announced (before after : string) (self : LambdaLayers) : M C unit :=
  run logger_info before in
  run _create_layer self in
  logger_info after.

(** The message of the check that finds the layer up to date. *)
Definition using_existent (self : LambdaLayers) : string :=
  "Using existent '" +:+ layer_name self +:+ "' layer".

Definition _create_supervisor_layer (self : LambdaLayers) : M C unit :=
  run logger_info ("Creating '" +:+ layer_name self +:+ "' layer.") in
  run _create_layer self in
  logger_info ("'" +:+ layer_name self +:+ "' layer created.").

Definition _update_supervisor_layer (self : LambdaLayers) : M C unit :=
  run logger_info ("Updating '" +:+ layer_name self +:+ "' layer.") in
  run _create_layer self in
  logger_info ("'" +:+ layer_name self +:+ "' layer updated.").

(** "Returns the ARN of the latest supervisor layer." *)
Definition get_latest_supervisor_layer_arn (self : LambdaLayers) : M C pyval :=
  let* layer_info := get_latest_layer_info (AStr (layer_name self)) in
  lift (py_get layer_info "LayerVersionArn" (AStr "")).

(** "Checks if the supervisor layer exists, if not, creates the layer.
    If the layer exists and it's not updated, updates the layer." *)
Definition check_faas_supervisor_layer (self : LambdaLayers) : M C unit :=
  let* layer_info := get_latest_layer_info (AStr (layer_name self)) in
  let* has_description :=
    if py_truthy layer_info then lift (py_in "Description" layer_info)
    else ret false in
  if has_description then
    let* description := lift (py_get layer_info "Description" (AStr "")) in
    let* cmp := lift (compare_versions description (supervisor_version self)) in
    if cmp <? 0 then _update_supervisor_layer self
    else logger_info ("Using existent '" +:+ layer_name self +:+ "' layer")
  else _create_supervisor_layer self.

End Model.

(** ** A reference instance of the collaborators *)

Module Reference.

Fixpoint digits_value (s : string) (acc : N) : option N :=
  match s with
  | EmptyString => Some acc
  | String c rest =>
      let n := N_of_ascii c in
      if ((48 <=? n) && (n <=? 57))%N
      then digits_value rest (acc * 10 + (n - 48))%N
      else None
  end.

(** Decimal literals with an optional sign. *)
Definition parse_int (s : string) : option Z :=
  match s with
  | EmptyString => None
  | String "-" (String c r) => Z.opp <$> (Z.of_N <$> digits_value (String c r) 0%N)
  | String "+" (String c r) => Z.of_N <$> digits_value (String c r) 0%N
  | _ => Z.of_N <$> digits_value s 0%N
  end.

Fixpoint compare_lists (a b : list N) : Z :=
  match a, b with
  | [], [] => 0
  | [], _ :: _ => -1
  | _ :: _, [] => 1
  | x :: a', y :: b' =>
      if (x <? y)%N then -1 else if (y <? x)%N then 1 else compare_lists a' b'
  end.

Definition parse_version (s : string) : option (list N) :=
  mapM (λ piece, digits_value piece 0%N) (split_all "." s).

(** Dotted decimal versions, compared piece by piece. *)
Definition compare_dotted (a : pyval) (b : string) : result Z :=
  match a with
  | PAtom (AStr a) =>
      match parse_version a, parse_version b with
      | Some x, Some y => Ok (compare_lists x y)
      | _, _ => Raise (ValueError "invalid version")
      end
  | _ => Raise (TypeError "expected string")
  end.

#[export] Instance utils : Utils := {|
  GITHUB_USER := "grycap";
  GITHUB_SUPERVISOR_PROJECT := "faas-supervisor";
  get_source_code_url user project version :=
    "https://github.com/" +:+ user +:+ "/" +:+ project
      +:+ "/archive/" +:+ version +:+ ".zip";
  compare_versions := compare_dotted;
  int_of_str := parse_int;
|}.

(** A registry that keeps what it lists, and that can be out of
    service: then publishing and deleting raise and change nothing. *)
Record registry : Type := Registry {
  listing : list dict;
  out_of_service : bool;
}.

Definition name_is (name : pyval) (layer : dict) : bool :=
  py_eq (dict_get layer "LayerName" (AStr "")) name.

Definition latest_version (layers : list dict) (name : pyval) : Z :=
  match List.find (name_is name) layers with
  | Some layer =>
      match layer !! "LatestMatchingVersion" with
      | Some (PDict info) =>
          match info !! "Version" with Some (AInt n) => n | _ => 0 end
      | _ => 0
      end
  | None => 0
  end.

Definition atom_of (v : option pyval) : atom :=
  match v with Some (PAtom a) => a | _ => ANone end.

Definition publish (kwargs : dict) (r : registry) : result pyval * registry :=
  if out_of_service r then (Raise (ClientError "ServiceException"), r)
  else
    let name := dict_get kwargs "LayerName" ANone in
    let info : gmap string atom :=
      {[ "Version" := AInt (latest_version (listing r) name + 1);
         "Description" := atom_of (kwargs !! "Description");
         "LayerVersionArn" := AStr "arn:aws:lambda:layer" ]} in
    let record : dict :=
      {[ "LayerName" := name; "LatestMatchingVersion" := PDict info ]} in
    (Ok (PDict info),
     Registry (record :: List.filter (λ l, negb (name_is name l)) (listing r))
              false).

Definition remove (kwargs : dict) (r : registry) : result pyval * registry :=
  if out_of_service r then (Raise (ClientError "ServiceException"), r)
  else
    let name := dict_get kwargs "LayerName" ANone in
    (Ok (PDict ∅),
     Registry (List.filter (λ l, negb (name_is name l)) (listing r)) false).

#[export] Instance lambda_client : LambdaClient registry := {|
  list_layers r := Ok (listing r);
  publish_layer_version := publish;
  delete_layer_version := remove;
|}.

Definition release_url : string :=
  "https://github.com/grycap/faas-supervisor/archive/1.5.0.zip".

(** A world with the temporary root, one release in the repository
    and the given registry. *)
Definition world_with (release : content) (r : registry) : world registry :=
  World {[ release_url := release ]} {[ ["tmp"] := Dir ]} 0 r [] [].

Definition supervisor : LambdaLayers :=
  {| layer_name := "faas-supervisor";
     supervisor_version := "1.5.0";
     license_info := AStr "Apache 2.0" |}.

Definition release_example (a b : content) : content :=
  Archive [ ("faas-supervisor-1.5.0/faassupervisor/a.py", a);
            ("faas-supervisor-1.5.0/extra/bundle.zip", Archive [("b.txt", b)]) ].

(** A release with a file under [extras/], a sibling of [extra/]. *)
Definition release_with_sibling : content :=
  Archive [ ("faas-supervisor-1.5.0/extras/notes.txt", Data "n") ].

(** A release whose only entry has no top-level folder. *)
Definition release_flat : content := Archive [ ("README", Data "r") ].

(** The information of a published version, with or without a
    description. *)
Definition version_info (version : Z) (description : option string)
  : gmap string atom :=
  let base : gmap string atom :=
    {[ "Version" := AInt version;
       "LayerVersionArn" := AStr "arn:aws:lambda:layer" ]} in
  match description with
  | Some d => <[ "Description" := AStr d ]> base
  | None => base
  end.

Definition layer_record (version : Z) (description : option string) : dict :=
  {[ "LayerName" := PAtom (AStr "faas-supervisor");
     "LatestMatchingVersion" := PDict (version_info version description) ]}.

(** The worlds of the three states of the layer, and one whose
    registry is out of service. *)
Definition world_absent : world registry :=
  world_with (release_example (Data "A") (Data "B")) (Registry [] false).

Definition world_stale : world registry :=
  world_with (release_example (Data "A") (Data "B"))
             (Registry [layer_record 3 (Some "1.4.0")] false).

Definition world_current : world registry :=
  world_with (release_example (Data "A") (Data "B"))
             (Registry [layer_record 4 (Some "1.5.0")] false).

Definition world_undescribed : world registry :=
  world_with (release_example (Data "A") (Data "B"))
             (Registry [layer_record 3 None] false).

Definition world_out_of_service : world registry :=
  world_with (release_example (Data "A") (Data "B")) (Registry [] true).

(** A world whose artifact repository has nothing to offer. *)
Definition world_offline : world registry :=
  World ∅ {[ ["tmp"] := Dir ]} 0 (Registry [] false) [] [].

(** A registry whose first record is empty and whose second record has
    the empty name. *)
Definition world_nameless : world registry :=
  world_with (Data "") (Registry [∅; {[ "LayerName" := PAtom (AStr "") ]}] false).

End Reference.

(** ** A client that cannot reach the registry *)

Module Unreachable.

(** Every call raises, as when the endpoint cannot be reached. *)
#[export] Instance lambda_client : LambdaClient unit := {|
  list_layers _ := Raise (ClientError "EndpointConnectionError");
  publish_layer_version _ c := (Raise (ClientError "EndpointConnectionError"), c);
  delete_layer_version _ c := (Raise (ClientError "EndpointConnectionError"), c);
|}.

Definition world_unreachable : world unit :=
  World ∅ {[ ["tmp"] := Dir ]} 0 tt [] [].

End Unreachable.

(** ** Entry names *)

(** A slash occurs in the string. *)
Fixpoint has_slash (s : string) : bool :=
  match s with
  | EmptyString => false
  | String c rest => Ascii.eqb c "/" || has_slash rest
  end.

(** ** Further states of the registry, the repository and the disk *)

Module Scenarios.

Import Reference.

(** The registry lists the layer without its latest version. *)
Definition world_unversioned : world registry :=
  world_with (release_example (Data "A") (Data "B"))
    (Registry [ {[ "LayerName" := PAtom (AStr "faas-supervisor") ]} ] false).

(** The registry lists two records of the layer. *)
Definition world_twice : world registry :=
  world_with (release_example (Data "A") (Data "B"))
    (Registry [ layer_record 3 (Some "1.4.0"); layer_record 7 (Some "1.5.0") ]
              false).

(** The latest version of the layer has no ARN. *)
Definition world_no_arn : world registry :=
  world_with (release_example (Data "A") (Data "B"))
    (Registry [ {[ "LayerName" := PAtom (AStr "faas-supervisor");
                   "LatestMatchingVersion" :=
                     PDict {[ "Version" := AInt 3 ]} ]} ] false).

(** The registry lists the layer with [None] for its latest version. *)
Definition world_null_version : world registry :=
  world_with (release_example (Data "A") (Data "B"))
    (Registry [ {[ "LayerName" := PAtom (AStr "faas-supervisor");
                   "LatestMatchingVersion" := PAtom ANone ]} ] false).

(** A release with an entry without top-level folder between two
    entries of the supervisor. *)
Definition release_broken : list (string * content) :=
  [ ("faas-supervisor-1.5.0/faassupervisor/a.py", Data "A");
    ("README", Data "r");
    ("faas-supervisor-1.5.0/extra/bundle.zip", Archive [("b.txt", Data "B")]) ].

(** A release that holds documentation only. *)
Definition release_docs : list (string * content) :=
  [ ("faas-supervisor-1.5.0/README.md", Data "r") ].

(** The disk after the two temporary folders have been made and the
    release has been extracted into the first. *)
Definition world_extracted : world registry :=
  set_fs {[ ["tmp"] := Dir;
            ["tmp"; "tmp0"] := Dir;
            ["tmp"; "tmp1"] := Dir;
            ["tmp"; "tmp0"; "faas-supervisor-1.5.0"] := Dir;
            ["tmp"; "tmp0"; "faas-supervisor-1.5.0"; "faassupervisor"] := Dir;
            ["tmp"; "tmp0"; "faas-supervisor-1.5.0"; "faassupervisor"; "a.py"]
              := File (Data "A") ]}
         world_absent.

End Scenarios.

(** * Properties *)

Section Layer_properties.

Context `{U : Utils} {C : Type} `{LC : LambdaClient C}.

Implicit Types (w : world C) (name : pyval) (layers : list dict).

Lemma find_run name w layers :
  list_layers (client w) = Ok layers →
  _find name w = (Ok (find_in layers name), listed w).
Proof.
  intros Hl. unfold _find, bind, client_list_layers, call_client.
  rewrite Hl. reflexivity.
Qed.

Lemma find_raise name w e :
  list_layers (client w) = Raise e →
  _find name w = (Raise e, listed w).
Proof.
  intros Hl. unfold _find, bind, client_list_layers, call_client.
  rewrite Hl. reflexivity.
Qed.

Lemma find_in_none name layers :
  absent layers name → find_in layers name = ∅.
Proof.
  induction 1 as [|l ls Hl _ IH]; [reflexivity|].
  cbn. unfold answers_to in Hl. destruct (py_eq _ _); [congruence | exact IH].
Qed.

(** What the scan returns: nothing answers, or the first record that
    answers. *)
Lemma find_in_first name layers :
  (absent layers name ∧ find_in layers name = ∅)
  ∨ (∃ pre post, layers = pre ++ find_in layers name :: post
       ∧ absent pre name
       ∧ answers_to name (find_in layers name)).
Proof.
  induction layers as [|l ls IH]; [left; split; [constructor | reflexivity]|].
  cbn. destruct (py_eq (dict_get l "LayerName" (AStr "")) name) eqn:E.
  - right. exists [], ls. repeat split; [constructor | exact E].
  - destruct IH as [[Hn He] | (pre & post & Heq & Hpre & Hans)].
    + left. split; [|exact He]. constructor; [|exact Hn].
      unfold answers_to. congruence.
    + right. exists (l :: pre), post. split; [cbn; congruence|].
      split; [|exact Hans]. constructor; [|exact Hpre].
      unfold answers_to. congruence.
Qed.

Lemma find_in_skip name pre layer post :
  absent pre name → answers_to name layer →
  find_in (pre ++ layer :: post) name = layer.
Proof.
  intros Hpre Hans. induction Hpre as [|l ls Hnl _ IH]; cbn.
  - unfold answers_to in Hans. rewrite Hans. reflexivity.
  - unfold answers_to in Hnl. destruct (py_eq _ _); [congruence | exact IH].
Qed.

Lemma answers_empty name : answers_to name ∅ ↔ name = PAtom (AStr "").
Proof.
  unfold answers_to, py_eq, dict_get. rewrite lookup_empty. cbn.
  rewrite bool_decide_eq_true. split; congruence.
Qed.

Lemma dict_truthy_true (d : dict) : dict_truthy d = true ↔ d ≠ ∅.
Proof.
  unfold dict_truthy. rewrite negb_true_iff, bool_decide_eq_false. reflexivity.
Qed.

Lemma dict_truthy_false (d : dict) : dict_truthy d = false ↔ d = ∅.
Proof.
  unfold dict_truthy. rewrite negb_false_iff, bool_decide_eq_true. reflexivity.
Qed.

Lemma exists_run name w layers :
  list_layers (client w) = Ok layers →
  exists_ name w = (Ok (dict_truthy (find_in layers name)), listed w).
Proof.
  intros Hl. unfold exists_, bind. rewrite (find_run _ _ _ Hl).
  destruct (dict_truthy _); reflexivity.
Qed.

(** C7 (as amended).  [exists] returns true if and only if [_find]
    returns a non-empty record.  It returns false exactly when [_find]
    returns the empty record: no listed record answers to the name, or
    the first that does is itself empty, which takes the empty name.
    When every listed record has a [LayerName], it returns false
    exactly when none has that name. *)
Theorem exists_iff_find_nonempty name w layers :
  list_layers (client w) = Ok layers →
  ((exists_ name w).1 = Ok true
     ↔ ∃ layer, (_find name w).1 = Ok layer ∧ layer ≠ ∅)
  ∧ ((exists_ name w).1 = Ok false
     ↔ absent layers name
       ∨ (name = PAtom (AStr "")
          ∧ ∃ pre post, layers = pre ++ ∅ :: post ∧ absent pre name))
  ∧ (Forall (λ l : dict, is_Some (l !! "LayerName")) layers →
     ((exists_ name w).1 = Ok false
        ↔ Forall (λ l : dict, l !! "LayerName" ≠ Some name) layers)).
Proof.
  intros Hl. rewrite (exists_run _ _ _ Hl), (find_run _ _ _ Hl). cbn.
  assert (Hfalse : Ok (dict_truthy (find_in layers name)) = Ok false
                   ↔ find_in layers name = ∅).
  { rewrite <- dict_truthy_false. split; congruence. }
  split; [|split].
  - split.
    + intros [= Ht]. exists (find_in layers name).
      split; [reflexivity | by apply dict_truthy_true].
    + intros (layer & [= <-] & Hne). f_equal. by apply dict_truthy_true.
  - rewrite Hfalse. split.
    + intros He. destruct (find_in_first name layers)
        as [[Hn _] | (pre & post & Heq & Hpre & Hans)]; [by left|].
      right. rewrite He in Heq, Hans. split; [by apply answers_empty|].
      by exists pre, post.
    + intros [Hn | (Hname & pre & post & -> & Hpre)];
        [by apply find_in_none|].
      apply find_in_skip; [exact Hpre | by apply answers_empty].
  - intros Hall. rewrite Hfalse. split.
    + intros He. destruct (find_in_first name layers)
        as [[Hn _] | (pre & post & Heq & Hpre & Hans)].
      * unfold absent in Hn.
        eapply Forall_impl; [exact Hn|]. intros l Hnl Hk. apply Hnl.
        unfold answers_to, py_eq, dict_get. rewrite Hk. cbn.
        by apply bool_decide_eq_true.
      * rewrite He in Heq. rewrite Heq in Hall.
        apply Forall_app in Hall as [_ Hall].
        apply Forall_cons in Hall as [[v Hv] _].
        rewrite lookup_empty in Hv. discriminate.
    + intros Hn. apply find_in_none. rewrite Forall_forall in Hall, Hn.
      unfold absent. apply Forall_forall. intros l Hin Hans.
      destruct (Hall l Hin) as [v Hv]. apply (Hn l Hin).
      unfold answers_to, py_eq, dict_get in Hans. rewrite Hv in Hans. cbn in Hans.
      apply bool_decide_eq_true in Hans. congruence.
Qed.

Lemma latest_info_absent name w layers :
  list_layers (client w) = Ok layers →
  find_in layers name = ∅ →
  get_latest_layer_info name w = (Ok (PDict ∅), listed w).
Proof.
  intros Hl He. unfold get_latest_layer_info, bind.
  rewrite (find_run _ _ _ Hl), He. reflexivity.
Qed.

Lemma latest_info_found name w layers v :
  list_layers (client w) = Ok layers →
  find_in layers name !! "LatestMatchingVersion" = Some v →
  get_latest_layer_info name w = (Ok v, listed w).
Proof.
  intros Hl Hv. unfold get_latest_layer_info, bind.
  rewrite (find_run _ _ _ Hl).
  assert (Ht : dict_truthy (find_in layers name) = true).
  { apply dict_truthy_true. intros He. rewrite He, lookup_empty in Hv.
    discriminate. }
  rewrite Ht. unfold lift, py_getitem. rewrite Hv. reflexivity.
Qed.

Lemma latest_info_of_first name w layers info :
  list_layers (client w) = Ok layers →
  latest_info_is layers name info →
  get_latest_layer_info name w = (Ok (PDict info), listed w).
Proof.
  intros Hl (pre & layer & post & -> & Hpre & Hans & Hv).
  apply (latest_info_found _ _ _ _ Hl).
  rewrite (find_in_skip _ _ _ _ Hpre Hans). exact Hv.
Qed.

Lemma latest_info_missing name w layers :
  list_layers (client w) = Ok layers →
  find_in layers name ≠ ∅ →
  find_in layers name !! "LatestMatchingVersion" = None →
  get_latest_layer_info name w
  = (Raise (KeyError "LatestMatchingVersion"), listed w).
Proof.
  intros Hl Hne Hv. unfold get_latest_layer_info, bind.
  rewrite (find_run _ _ _ Hl), (proj2 (dict_truthy_true _) Hne).
  unfold lift, py_getitem. by rewrite Hv.
Qed.

Lemma latest_info_raise name w e :
  list_layers (client w) = Raise e →
  get_latest_layer_info name w = (Raise e, listed w).
Proof.
  intros Hl. unfold get_latest_layer_info, bind.
  rewrite (find_raise _ _ _ Hl). reflexivity.
Qed.

(** C9.  When no listed record answers to the layer name,
    [get_latest_supervisor_layer_arn] returns the empty string; when
    one does, it returns the [LayerVersionArn] held by the
    [LatestMatchingVersion] of the record that [_find] returns, the
    first that answers. *)
Theorem latest_arn_absent_or_exact (self : LambdaLayers) w layers :
  list_layers (client w) = Ok layers →
  let name := PAtom (AStr (layer_name self)) in
  (absent layers name →
     get_latest_supervisor_layer_arn self w = (Ok (PAtom (AStr "")), listed w))
  ∧ (∀ info arn,
       latest_info_is layers name info →
       info !! "LayerVersionArn" = Some arn →
       get_latest_supervisor_layer_arn self w = (Ok (PAtom arn), listed w)).
Proof.
  intros Hl name. unfold get_latest_supervisor_layer_arn, bind. split.
  - intros Hn. fold name.
    rewrite (latest_info_absent _ _ _ Hl (find_in_none _ _ Hn)).
    reflexivity.
  - intros info arn Hinfo Harn. fold name.
    rewrite (latest_info_of_first _ _ _ _ Hl Hinfo).
    unfold lift, py_get. rewrite Harn. reflexivity.
Qed.

(** The keyword arguments of the registry's delete call. *)
Lemma delete_with_version kwargs name version n w :
  kwargs !! "name" = Some name →
  kwargs !! "version" = Some version →
  py_int version = Ok n →
  let layer_args : dict :=
    <[ "VersionNumber" := PAtom (AInt n) ]> {[ "LayerName" := name ]} in
  delete_ kwargs w =
    call_client (DeleteLayerVersion layer_args)
                (delete_layer_version layer_args) w.
Proof.
  intros Hname Hver Hint. unfold delete_, bind, lift, py_getitem.
  rewrite Hname, Hver, Hint. cbn. reflexivity.
Qed.

Lemma delete_version_not_int kwargs name version e w :
  kwargs !! "name" = Some name →
  kwargs !! "version" = Some version →
  py_int version = Raise e →
  delete_ kwargs w = (Raise e, w).
Proof.
  intros Hname Hver Hint. unfold delete_, bind, lift, py_getitem.
  rewrite Hname, Hver, Hint. cbn. reflexivity.
Qed.

Lemma delete_latest kwargs name info w layers :
  kwargs !! "name" = Some name →
  kwargs !! "version" = None →
  list_layers (client w) = Ok layers →
  get_latest_layer_info name w = (Ok (PDict info), listed w) →
  let layer_args : dict :=
    <[ "VersionNumber" := PAtom (default (AInt (-1)) (info !! "Version")) ]>
      {[ "LayerName" := name ]} in
  delete_ kwargs w =
    call_client (DeleteLayerVersion layer_args)
                (delete_layer_version layer_args) (listed w).
Proof.
  intros Hname Hver Hl Hinfo. unfold delete_, bind, lift, py_getitem.
  rewrite Hname, Hver. cbn. unfold bind. rewrite Hinfo. cbn. reflexivity.
Qed.

(** C5.  Without a version, [delete] lists the registry and calls
    [delete_layer_version] with the [Version] of the latest
    information of the name, and with -1 when that information has no
    [Version] or when no record answers to the name: the call is made
    all the same.  With a version, an integer or a value that [int]
    turns into one, it calls [delete_layer_version] with that number
    and makes no other call: the registry is not listed, whatever its
    state. *)
Theorem delete_resolves_version kwargs name w :
  kwargs !! "name" = Some name →
  (kwargs !! "version" = None →
   ∀ layers, list_layers (client w) = Ok layers →
     (∀ info,
        latest_info_is layers name info →
        let layer_args : dict :=
          <[ "VersionNumber" := PAtom (default (AInt (-1)) (info !! "Version")) ]>
            {[ "LayerName" := name ]} in
        delete_ kwargs w =
          call_client (DeleteLayerVersion layer_args)
                      (delete_layer_version layer_args) (listed w))
     ∧ (absent layers name →
        let layer_args : dict :=
          <[ "VersionNumber" := PAtom (AInt (-1)) ]> {[ "LayerName" := name ]} in
        delete_ kwargs w =
          call_client (DeleteLayerVersion layer_args)
                      (delete_layer_version layer_args) (listed w)))
  ∧ (∀ (version : pyval) (V : Z),
       kwargs !! "version" = Some version →
       version = PAtom (AInt V) ∨ py_int version = Ok V →
       let layer_args : dict :=
         <[ "VersionNumber" := PAtom (AInt V) ]> {[ "LayerName" := name ]} in
       delete_ kwargs w =
         call_client (DeleteLayerVersion layer_args)
                     (delete_layer_version layer_args) w
       ∧ calls (delete_ kwargs w).2 = calls w ++ [DeleteLayerVersion layer_args]).
Proof.
  intros Hname. split.
  - intros Hver layers Hl. split.
    + intros info Hinfo.
      apply (delete_latest _ _ _ _ _ Hname Hver Hl).
      apply (latest_info_of_first _ _ _ _ Hl Hinfo).
    + intros Hn.
      exact (delete_latest _ _ ∅ _ _ Hname Hver Hl
               (latest_info_absent _ _ _ Hl (find_in_none _ _ Hn))).
  - intros version V Hver Hint layer_args.
    assert (Hint' : py_int version = Ok V).
    { destruct Hint as [-> | Hint]; [reflexivity | exact Hint]. }
    assert (E : delete_ kwargs w =
                  call_client (DeleteLayerVersion layer_args)
                              (delete_layer_version layer_args) w)
      by exact (delete_with_version _ _ _ V w Hname Hver Hint').
    split; [exact E|].
    rewrite E. unfold call_client.
    destruct (delete_layer_version layer_args (client w)). reflexivity.
Qed.

(** C10.  A version given to [delete] goes through [int] before the
    registry is called: the call carries the integer, and when [int]
    raises, [delete] raises the same exception without any call, in
    the same world. *)
Theorem delete_coerces_version kwargs name version w :
  kwargs !! "name" = Some name →
  kwargs !! "version" = Some version →
  (∀ n, py_int version = Ok n →
     let layer_args : dict :=
       <[ "VersionNumber" := PAtom (AInt n) ]> {[ "LayerName" := name ]} in
     delete_ kwargs w =
       call_client (DeleteLayerVersion layer_args)
                   (delete_layer_version layer_args) w)
  ∧ (∀ e, py_int version = Raise e →
       delete_ kwargs w = (Raise e, w)
       ∧ client (delete_ kwargs w).2 = client w
       ∧ List.filter is_delete (calls (delete_ kwargs w).2)
           = List.filter is_delete (calls w)).
Proof.
  intros Hname Hver. split.
  - intros n Hint. exact (delete_with_version _ _ _ n w Hname Hver Hint).
  - intros e Hint.
    rewrite (delete_version_not_int _ _ _ _ w Hname Hver Hint). by cbn.
Qed.

End Layer_properties.

Section Flow_properties.

Context `{U : Utils} {C : Type} `{LC : LambdaClient C}.

Implicit Types (w : world C) (self : LambdaLayers).

Lemma bind_assoc {A B D} (m : M C A) (k : A → M C B) (h : B → M C D) w :
  bind (bind m k) h w = bind m (λ a, bind (k a) h) w.
Proof. unfold bind. by destruct (m w) as [[a|e] w1]. Qed.

Lemma bind_ext {A B} (m : M C A) (k k' : A → M C B) w :
  (∀ a w', k a w' = k' a w') → bind m k w = bind m k' w.
Proof. intros H. unfold bind. destruct (m w) as [[a|e] w1]; [apply H | done]. Qed.

Create HintDb local_db.

Lemma local_ret {A} (a : A) : local (C:=C) (ret a).
Proof. by intros w. Qed.

Lemma local_raise {A} e : local (C:=C) (A:=A) (raise e).
Proof. by intros w. Qed.

Lemma local_lift {A} (r : result A) : local (C:=C) (lift r).
Proof. by intros w. Qed.

Lemma local_bind {A B} (m : M C A) (k : A → M C B) :
  local m → (∀ a, local (k a)) → local (bind m k).
Proof.
  intros Hm Hk w. unfold bind. specialize (Hm w).
  destruct (m w) as [[a|e] w1]; cbn in *; [|exact Hm].
  destruct (Hk a w1) as (-> & -> & ->). exact Hm.
Qed.

Lemma local_for_each {A} (xs : list A) (body : A → M C unit) :
  (∀ x, local (body x)) → local (for_each xs body).
Proof.
  intros Hb. induction xs as [|x xs IH]; cbn.
  - apply local_ret.
  - apply local_bind; [apply Hb | intros _; exact IH].
Qed.

Lemma local_get_fs : local (C:=C) get_fs.
Proof. by intros w. Qed.

Lemma local_update_fs op : local (C:=C) (update_fs op).
Proof. intros w. unfold update_fs. by destruct (op (fs w)). Qed.

Lemma local_create_tmp_dir : local (C:=C) create_tmp_dir.
Proof.
  intros w. unfold create_tmp_dir.
  destruct (negb _); [done|]. by destruct (path_exists _ _).
Qed.

Lemma local_get_file url : local (C:=C) (get_file url).
Proof. intros w. unfold get_file. by destruct (remote w !! url). Qed.

#[local] Hint Resolve local_ret local_raise local_lift local_get_fs
  local_update_fs local_create_tmp_dir local_get_file : local_db.

Ltac local_step :=
  first [ solve [auto with local_db]
        | apply local_for_each; intros ?
        | apply local_bind; [|intros ?] ].

Lemma local_open_zip data : local (C:=C) (open_zip data).
Proof. destruct data; cbn; auto with local_db. Qed.

Lemma local_zip_extract ms name base : local (C:=C) (zip_extract ms name base).
Proof. unfold zip_extract. destruct (getinfo ms name); auto with local_db. Qed.

#[local] Hint Resolve local_open_zip local_zip_extract : local_db.

Lemma local_download_loop ms names tmp p :
  local (C:=C) (download_loop ms names tmp p).
Proof.
  revert p. induction names as [|n ns IH]; intros p; cbn; [auto with local_db|].
  destruct (split1 "/" n) as [|a [|b [|? ?]]]; auto with local_db.
  apply local_bind; [|intros _; apply IH].
  destruct (_ || _); auto with local_db.
Qed.

Lemma local_download v tmp : local (C:=C) (_download_supervisor v tmp).
Proof.
  unfold _download_supervisor. repeat local_step.
  - apply local_download_loop.
  - destruct a1; auto with local_db.
Qed.

Lemma local_unzip_folder z d : local (C:=C) (unzip_folder z d).
Proof.
  unfold unzip_folder. local_step; [auto with local_db|].
  destruct (a !! z) as [[[|ms]|]|]; auto with local_db.
  local_step. auto with local_db.
Qed.

Lemma local_read_file p : local (C:=C) (read_file p).
Proof.
  unfold read_file. local_step; [auto with local_db|].
  destruct (a !! p) as [[|]|]; auto with local_db.
Qed.

#[local] Hint Resolve local_download_loop local_download local_unzip_folder
  local_read_file : local_db.

Lemma local_package self : local (C:=C) (package_layer self).
Proof.
  unfold package_layer, _create_tmp_folders, _copy_supervisor_files,
    _copy_extra_files, _create_layer_zip, zip_folder,
    get_all_files_in_directory, _get_supervisor_layer_props.
  apply local_bind; [repeat local_step|]. intros [tmp code].
  apply local_bind; [apply local_download|]. intros parent.
  repeat local_step.
Qed.

(** [_create_layer] is the packaging, then the publication, then the
    removal of the output archive. *)
Lemma create_layer_steps self w :
  _create_layer self w =
    (let* props := package_layer self in
     run create props in
     delete_file (layer_zip_path_of self)) w.
Proof.
  unfold _create_layer, package_layer, bind.
  destruct (_create_tmp_folders w) as [[[tmp code]|e] w1]; [|reflexivity].
  destruct (_download_supervisor _ _ w1) as [[parent|e] w2]; [|reflexivity].
  destruct (_copy_supervisor_files _ _ _ w2) as [[[]|e] w3]; [|reflexivity].
  destruct (_copy_extra_files _ _ _ w3) as [[[]|e] w4]; [|reflexivity].
  destruct (_create_layer_zip _ _ w4) as [[[]|e] w5]; reflexivity.
Qed.

(** What the packaging hands over when it succeeds: the output archive
    is on disk and its bytes are the content of the layer. *)
Lemma layer_props_ok self p w props w1 :
  _get_supervisor_layer_props self p w = (Ok props, w1) →
  w1 = w ∧ ∃ zip_file,
    fs w !! p = Some (File zip_file)
    ∧ props = {[ "LayerName" := PAtom (AStr (layer_name self));
                 "Description" := PAtom (AStr (supervisor_version self));
                 "Content" := PDict {[ "ZipFile" := ABytes zip_file ]};
                 "LicenseInfo" := license_info self ]}.
Proof.
  unfold _get_supervisor_layer_props, read_file, bind, get_fs. cbn.
  destruct (fs w !! p) as [[c|]|] eqn:E; cbn; intros [= <- <-].
  split; [reflexivity|]. by exists c.
Qed.

Lemma package_ok self w props w1 :
  package_layer self w = (Ok props, w1) →
  ∃ zip_file,
    fs w1 !! layer_zip_path_of self = Some (File zip_file)
    ∧ props = {[ "LayerName" := PAtom (AStr (layer_name self));
                 "Description" := PAtom (AStr (supervisor_version self));
                 "Content" := PDict {[ "ZipFile" := ABytes zip_file ]};
                 "LicenseInfo" := license_info self ]}.
Proof.
  unfold package_layer, bind.
  destruct (_create_tmp_folders w) as [[[tmp code]|e] w2]; [|discriminate].
  destruct (_download_supervisor _ _ w2) as [[parent|e] w3]; [|discriminate].
  destruct (_copy_supervisor_files _ _ _ w3) as [[[]|e] w4]; [|discriminate].
  destruct (_copy_extra_files _ _ _ w4) as [[[]|e] w5]; [|discriminate].
  destruct (_create_layer_zip _ _ w5) as [[[]|e] w6]; [|discriminate].
  intros Hp. destruct (layer_props_ok _ _ _ _ _ Hp) as [-> H]. exact H.
Qed.

Lemma delete_file_ok p w c :
  fs w !! p = Some (File c) →
  delete_file p w = (Ok tt, set_fs (delete p (fs w)) w).
Proof.
  intros Hp. unfold delete_file, bind, get_fs. cbn. rewrite Hp. reflexivity.
Qed.

(** The three ways [_create_layer] can go: it raises while packaging,
    before any call; the publication raises, and the output archive
    stays; or the publication returns, and the archive is removed. *)
Lemma create_layer_cases self w :
  (∃ e w1, _create_layer self w = (Raise e, w1)
     ∧ no_call w w1 ∧ log w1 = log w)
  ∨ (∃ props w1 zip_file,
       package_layer self w = (Ok props, w1)
       ∧ no_call w w1 ∧ log w1 = log w
       ∧ fs w1 !! layer_zip_path_of self = Some (File zip_file)
       ∧ props !! "Content" = Some (PDict {[ "ZipFile" := ABytes zip_file ]})
       ∧ props !! "LayerName" = Some (PAtom (AStr (layer_name self)))
       ∧ props !! "Description" = Some (PAtom (AStr (supervisor_version self)))
       ∧ ((∃ e cl, publish_layer_version props (client w1) = (Raise e, cl)
             ∧ _create_layer self w
                 = (Raise e, record_call (PublishLayerVersion props) cl w1))
          ∨ (∃ v cl, publish_layer_version props (client w1) = (Ok v, cl)
               ∧ _create_layer self w
                   = (Ok tt, set_fs (delete (layer_zip_path_of self) (fs w1))
                               (record_call (PublishLayerVersion props) cl w1))))).
Proof.
  rewrite create_layer_steps. unfold bind, create, call_client.
  destruct (local_package self w) as (Hc & Hk & Hlog).
  destruct (package_layer self w) as [[props|e] w1] eqn:Hp;
    cbn in Hc, Hk, Hlog.
  - right. destruct (package_ok _ _ _ _ Hp) as (zip_file & Hzip & Hprops).
    exists props, w1, zip_file. split; [reflexivity|].
    split; [by split|]. split; [exact Hlog|]. split; [exact Hzip|].
    split; [subst props; by simplify_map_eq|].
    split; [subst props; by simplify_map_eq|].
    split; [subst props; by simplify_map_eq|].
    destruct (publish_layer_version props (client w1)) as [[v|e] cl] eqn:Hpub.
    + right. exists v, cl. split; [reflexivity|].
      by rewrite (delete_file_ok _ _ zip_file).
    + left. by exists e, cl.
  - left. exists e, w1. split; [reflexivity|]. split; [by split | exact Hlog].
Qed.

Lemma create_flow_announced self :
  _create_supervisor_layer self
  = announced ("Creating '" +:+ layer_name self +:+ "' layer.")
              ("'" +:+ layer_name self +:+ "' layer created.") self.
Proof. reflexivity. Qed.

Lemma update_flow_announced self :
  _update_supervisor_layer self
  = announced ("Updating '" +:+ layer_name self +:+ "' layer.")
              ("'" +:+ layer_name self +:+ "' layer updated.") self.
Proof. reflexivity. Qed.

(** A flow that returns has published once, the publication returned,
    and the output archive is gone. *)
Lemma announced_ok before after self w w' :
  announced before after self w = (Ok tt, w') →
  publishes_once self w w'
  ∧ (∃ props v, publish_layer_version props (client w) = (Ok v, client w')
       ∧ props !! "LayerName" = Some (PAtom (AStr (layer_name self)))
       ∧ props !! "Description" = Some (PAtom (AStr (supervisor_version self))))
  ∧ fs w' !! layer_zip_path_of self = None.
Proof.
  unfold announced, bind, logger_info.
  destruct (create_layer_cases self (logged before w))
    as [(e & w1 & -> & _) | (props & w1 & z & Hp & [Hk Hc] & _ & Hz & _ & Hn & Hd
                             & [(e & cl & Hpub & ->) | (v & cl & Hpub & ->)])];
    [discriminate | discriminate |].
  intros [= <-]. cbn in Hk, Hc. rewrite Hc in Hpub. cbn.
  split; [|split].
  - exists props. cbn. rewrite Hk, Hpub. done.
  - exists props, v. by rewrite Hpub.
  - apply lookup_delete_eq.
Qed.

(** Whatever happens, a flow publishes once, or raises before any call. *)
Lemma announced_at_most_once before after self w :
  publishes_once self w (announced before after self w).2
  ∨ (no_call w (announced before after self w).2
     ∧ ∃ e, (announced before after self w).1 = Raise e).
Proof.
  unfold announced, bind, logger_info.
  destruct (create_layer_cases self (logged before w))
    as [(e & w1 & -> & [Hk Hc] & _)
       | (props & w1 & z & Hp & [Hk Hc] & _ & Hz & _ & Hn & Hd
          & [(e & cl & Hpub & ->) | (v & cl & Hpub & ->)])];
    cbn in Hk, Hc; cbn.
  - right. split; [by split | by exists e].
  - left. exists props. cbn. rewrite Hk, <- Hc, Hpub. done.
  - left. exists props. cbn. rewrite Hk, <- Hc, Hpub. done.
Qed.

Lemma announced_result before after self w :
  flow_result self w (announced before after self w).
Proof.
  split; [|apply announced_at_most_once].
  destruct (announced before after self w) as [[[]|e] w'] eqn:Ha; [|discriminate].
  intros _. by destruct (announced_ok _ _ _ _ _ Ha).
Qed.

(** ** The decision of [check_faas_supervisor_layer] *)

Lemma check_without_description self w w1 info :
  get_latest_layer_info (AStr (layer_name self)) w = (Ok (PDict info), w1) →
  info !! "Description" = None →
  check_faas_supervisor_layer self w = _create_supervisor_layer self w1.
Proof.
  intros Hi Hd. unfold check_faas_supervisor_layer, bind at 1. rewrite Hi.
  unfold bind at 1. cbn [py_truthy].
  destruct (negb (bool_decide (info = ∅))); cbn.
  - rewrite Hd. rewrite bool_decide_eq_false_2; [reflexivity|].
    by intros [? ?].
  - reflexivity.
Qed.

Lemma check_with_description self w w1 info d :
  get_latest_layer_info (AStr (layer_name self)) w = (Ok (PDict info), w1) →
  info !! "Description" = Some d →
  check_faas_supervisor_layer self w =
    match compare_versions (PAtom d) (supervisor_version self) with
    | Ok cmp => if cmp <? 0 then _update_supervisor_layer self w1
                else (Ok tt, logged (using_existent self) w1)
    | Raise e => (Raise e, w1)
    end.
Proof.
  intros Hi Hd. unfold check_faas_supervisor_layer, bind at 1. rewrite Hi.
  unfold bind at 1. cbn [py_truthy].
  assert (Hne : info ≠ ∅).
  { intros ->. rewrite lookup_empty in Hd. discriminate. }
  rewrite bool_decide_eq_false_2 by exact Hne. cbn.
  rewrite Hd. rewrite bool_decide_eq_true_2 by eauto.
  unfold bind, lift. cbn.
  destruct (compare_versions d (supervisor_version self)) as [c|e];
    [|reflexivity].
  destruct (c <? 0); reflexivity.
Qed.

Lemma check_current self w layers info d c :
  list_layers (client w) = Ok layers →
  latest_info_is layers (AStr (layer_name self)) info →
  info !! "Description" = Some d →
  compare_versions (PAtom d) (supervisor_version self) = Ok c →
  0 ≤ c →
  check_faas_supervisor_layer self w
  = (Ok tt, logged (using_existent self) (listed w)).
Proof.
  intros Hl Hi Hd Hc Hge.
  rewrite (check_with_description _ _ _ _ _
             (latest_info_of_first _ _ _ _ Hl Hi) Hd), Hc.
  destruct (Z.ltb_spec c 0); [lia | reflexivity].
Qed.

(** C1.  The registry being listed, [check_faas_supervisor_layer] takes
    one of three ways.  When no record answers to the layer name, or the
    latest information of the first that does has no [Description], it
    is the create flow.  When that [Description] compares below the
    desired version, it is the update flow.  Either flow makes exactly
    one call, a publication whose [Description] is the desired version:
    always when it returns, and unless fetching or packaging raised
    before any call when it does not.  Otherwise nothing is published
    and the registry is left as it was: when the [Description] does not
    compare below the desired version, the layer in place is reported
    and the only call is the listing; when the comparison raises, so
    does the check. *)
Theorem check_three_outcomes self w layers :
  list_layers (client w) = Ok layers →
  let name := PAtom (AStr (layer_name self)) in
  let desired := supervisor_version self in
  ((absent layers name
    ∨ (∃ info, latest_info_is layers name info ∧ info !! "Description" = None)) →
     check_faas_supervisor_layer self w
       = _create_supervisor_layer self (listed w)
     ∧ flow_result self (listed w) (check_faas_supervisor_layer self w))
  ∧ (∀ info d,
       latest_info_is layers name info →
       info !! "Description" = Some d →
       (∀ c, compare_versions (PAtom d) desired = Ok c → c < 0 →
          check_faas_supervisor_layer self w
            = _update_supervisor_layer self (listed w)
          ∧ flow_result self (listed w) (check_faas_supervisor_layer self w))
       ∧ (∀ c, compare_versions (PAtom d) desired = Ok c → 0 ≤ c →
            check_faas_supervisor_layer self w
              = (Ok tt, logged (using_existent self) (listed w))
            ∧ calls (check_faas_supervisor_layer self w).2
                = calls w ++ [ListLayers]
            ∧ client (check_faas_supervisor_layer self w).2 = client w)
       ∧ (∀ e, compare_versions (PAtom d) desired = Raise e →
            check_faas_supervisor_layer self w = (Raise e, listed w))).
Proof.
  intros Hl name desired.
  assert (Hflow : ∀ flow before after,
    flow = announced before after self →
    check_faas_supervisor_layer self w = flow (listed w) →
    check_faas_supervisor_layer self w = flow (listed w)
    ∧ flow_result self (listed w) (check_faas_supervisor_layer self w)).
  { intros flow before after -> E. split; [exact E|]. rewrite E.
    apply announced_result. }
  split.
  - intros Habs. eapply Hflow; [apply create_flow_announced|].
    destruct Habs as [Hn | (info & Hi & Hd)].
    + apply (check_without_description _ _ _ ∅);
        [|apply lookup_empty].
      apply (latest_info_absent _ _ _ Hl). by apply find_in_none.
    + apply (check_without_description _ _ _ info); [|exact Hd].
      by apply (latest_info_of_first _ _ _ _ Hl).
  - intros info d Hi Hd.
    assert (E := check_with_description _ _ _ _ _
                   (latest_info_of_first _ _ _ _ Hl Hi) Hd).
    fold desired in E. split; [|split].
    + intros c Hc Hlt. rewrite Hc in E.
      eapply Hflow; [apply update_flow_announced|].
      rewrite E. by destruct (Z.ltb_spec c 0); [|lia].
    + intros c Hc Hge.
      rewrite (check_current _ _ _ _ _ _ Hl Hi Hd Hc Hge). done.
    + intros e Hc. by rewrite Hc in E.
Qed.

(** C4 (as amended).  When [_create_layer] returns, the output archive
    is no longer on disk, and it is all that was removed from what the
    packaging left there.  When the publication raises after the
    packaging succeeded, [_create_layer] raises the same exception and
    the output archive, whose bytes were the content to publish, is
    still on disk.  Whenever [_create_layer] raises, the disk is as the
    packaging left it: nothing is removed. *)
Theorem output_archive_after_attempt self w :
  (∀ w', _create_layer self w = (Ok tt, w') →
     fs w' !! layer_zip_path_of self = None
     ∧ ∃ props w1, package_layer self w = (Ok props, w1)
         ∧ fs w' = delete (layer_zip_path_of self) (fs w1))
  ∧ (∀ props w1 e cl,
       package_layer self w = (Ok props, w1) →
       publish_layer_version props (client w1) = (Raise e, cl) →
       ∃ w2 zip_file,
         _create_layer self w = (Raise e, w2)
         ∧ fs w2 !! layer_zip_path_of self = Some (File zip_file)
         ∧ props !! "Content" = Some (PDict {[ "ZipFile" := ABytes zip_file ]}))
  ∧ (∀ e w', _create_layer self w = (Raise e, w') →
       fs w' = fs (package_layer self w).2).
Proof.
  assert (Hraise : ∀ e w', _create_layer self w = (Raise e, w') →
                           fs w' = fs (package_layer self w).2).
  { intros e w'. rewrite create_layer_steps. unfold bind, create, call_client.
    destruct (package_layer self w) as [[props|e0] w1] eqn:Hp;
      [|by intros [= <- <-]].
    destruct (package_ok _ _ _ _ Hp) as (z & Hz & _).
    destruct (publish_layer_version props (client w1)) as [[v|e1] cl].
    - by rewrite (delete_file_ok _ _ z).
    - by intros [= <- <-]. }
  apply and_assoc. split; [|exact Hraise]. clear Hraise.
  destruct (create_layer_cases self w)
    as [(e & w1 & Hr & [Hk _] & _)
       | (props & w1 & z & Hp & _ & _ & Hz & Hcontent & _ & _
          & [(e & cl & Hpub & Hr) | (v & cl & Hpub & Hr)])].
  - split.
    + intros w'. rewrite Hr. discriminate.
    + intros props w2 e' cl Hp. rewrite create_layer_steps in Hr.
      unfold bind in Hr. rewrite Hp in Hr. intros Hpub.
      unfold create, call_client in Hr. rewrite Hpub in Hr.
      injection Hr as <- <-. destruct (local_package self w) as (_ & Hk2 & _).
      rewrite Hp in Hk2. cbn in Hk, Hk2. rewrite Hk2 in Hk.
      assert (Hlen := f_equal length Hk). rewrite length_app in Hlen.
      cbn in Hlen. lia.
  - split.
    + intros w'. rewrite Hr. discriminate.
    + intros props' w2 e' cl'. rewrite Hp. intros [= <- <-].
      rewrite Hpub. intros [= <- <-].
      exists (record_call (PublishLayerVersion props) cl w1), z. done.
  - split.
    + intros w'. rewrite Hr. intros [= <-]. split; [apply lookup_delete_eq|].
      by exists props, w1.
    + intros props' w2 e' cl'. rewrite Hp. intros [= <- <-].
      rewrite Hpub. discriminate.
Qed.

Lemma check_on_atom self w w1 (a : atom) :
  get_latest_layer_info (AStr (layer_name self)) w = (Ok (PAtom a), w1) →
  check_faas_supervisor_layer self w = _create_supervisor_layer self w1
  ∨ ∃ e, check_faas_supervisor_layer self w = (Raise e, w1).
Proof.
  intros Hi.
  assert (E : ∀ r, check_faas_supervisor_layer self w = r →
    r = (let* has_description :=
           if py_truthy a then lift (py_in "Description" a) else ret false in
         if has_description then
           let* description := lift (py_get a "Description" (AStr "")) in
           let* cmp := lift (compare_versions description
                                              (supervisor_version self)) in
           if cmp <? 0 then _update_supervisor_layer self
           else logger_info (using_existent self)
         else _create_supervisor_layer self) w1).
  { intros r <-. unfold check_faas_supervisor_layer, bind at 1.
    by rewrite Hi. }
  rewrite (E _ eq_refl). clear E. unfold bind at 1.
  destruct a as [|z|s|[b|ms]]; cbn.
  - by left.
  - destruct (negb (z =? 0)); cbn; [right; eauto | by left].
  - destruct (negb (s =? "")%string); cbn; [|by left].
    destruct (contains_substring "Description" s); [right; eauto | by left].
  - destruct (negb (b =? "")%string); cbn; [right; eauto | by left].
  - right; eauto.
Qed.

(** Every way [check_faas_supervisor_layer] can go. *)
Lemma check_cases self w :
  check_faas_supervisor_layer self w = _create_supervisor_layer self (listed w)
  ∨ check_faas_supervisor_layer self w = _update_supervisor_layer self (listed w)
  ∨ (∃ layers info d c,
       list_layers (client w) = Ok layers
       ∧ latest_info_is layers (AStr (layer_name self)) info
       ∧ info !! "Description" = Some d
       ∧ compare_versions (PAtom d) (supervisor_version self) = Ok c
       ∧ 0 ≤ c)
  ∨ (∃ e, check_faas_supervisor_layer self w = (Raise e, listed w)).
Proof.
  set (name := PAtom (AStr (layer_name self))).
  destruct (list_layers (client w)) as [layers|e] eqn:Hl.
  2:{ right; right; right. exists e. subst name.
      unfold check_faas_supervisor_layer, bind.
      by rewrite (latest_info_raise _ _ _ Hl). }
  destruct (find_in_first name layers)
    as [[Hn He] | (pre & post & Heq & Hpre & Hans)].
  { left. apply (check_without_description _ _ _ ∅); [|apply lookup_empty].
    by apply (latest_info_absent _ _ _ Hl). }
  destruct (decide (find_in layers name = ∅)) as [He|Hne].
  { left. apply (check_without_description _ _ _ ∅); [|apply lookup_empty].
    by apply (latest_info_absent _ _ _ Hl). }
  destruct (find_in layers name !! "LatestMatchingVersion") as [[a|info]|] eqn:Hv.
  - destruct (check_on_atom self w (listed w) a) as [E | [e E]];
      [by apply (latest_info_found _ _ _ _ Hl) | by left |].
    right; right; right. by exists e.
  - assert (Hi : latest_info_is layers name info).
    { exists pre, (find_in layers name), post. done. }
    assert (Hrun := latest_info_of_first _ _ _ _ Hl Hi).
    destruct (info !! "Description") as [d|] eqn:Hd.
    + rewrite (check_with_description _ _ _ _ _ Hrun Hd).
      destruct (compare_versions d (supervisor_version self)) as [c|e] eqn:Hc.
      * destruct (Z.ltb_spec c 0); [right; by left|].
        right; right; left. by exists layers, info, d, c.
      * right; right; right. by exists e.
    + left. by apply (check_without_description _ _ _ info).
  - right; right; right. exists (KeyError "LatestMatchingVersion").
    subst name. unfold check_faas_supervisor_layer, bind.
    by rewrite (latest_info_missing _ _ _ Hl Hne Hv).
Qed.

(** C6.  Let the comparison of the desired version with itself not be
    negative, and let the registry list, as the latest information of a
    name, the description it was last published with.  When a first
    [check_faas_supervisor_layer] returns, a second one in the world it
    leaves only lists the registry and reports the existent layer, and
    the two together have published at most once. *)
Theorem check_twice_publishes_once self w w1 :
  (∃ c, compare_versions (PAtom (AStr (supervisor_version self)))
          (supervisor_version self) = Ok c ∧ 0 ≤ c) →
  (∀ (props : dict) cl v cl',
     publish_layer_version props cl = (Ok v, cl') →
     props !! "LayerName" = Some (PAtom (AStr (layer_name self))) →
     props !! "Description" = Some (PAtom (AStr (supervisor_version self))) →
     ∃ layers info,
       list_layers cl' = Ok layers
       ∧ latest_info_is layers (AStr (layer_name self)) info
       ∧ info !! "Description" = Some (AStr (supervisor_version self))) →
  check_faas_supervisor_layer self w = (Ok tt, w1) →
  check_faas_supervisor_layer self w1
    = (Ok tt, logged (using_existent self) (listed w1))
  ∧ (length (List.filter is_publish
               (calls (check_faas_supervisor_layer self w1).2))
     ≤ length (List.filter is_publish (calls w)) + 1)%nat.
Proof.
  intros (c0 & Hc0 & Hge0) Hreg Hfirst.
  assert (Hflow : ∀ before after,
    announced before after self (listed w) = (Ok tt, w1) →
    check_faas_supervisor_layer self w1
      = (Ok tt, logged (using_existent self) (listed w1))
    ∧ (length (List.filter is_publish (calls w1 ++ [ListLayers]))
       ≤ length (List.filter is_publish (calls w)) + 1)%nat).
  { intros before after Ha.
    destruct (announced_ok _ _ _ _ _ Ha)
      as ((props & Hcalls & _) & (props' & v & Hpub & Hn & Hd) & _).
    destruct (Hreg _ _ _ _ Hpub Hn Hd) as (layers & info & Hl & Hi & Hdesc).
    split; [by apply (check_current _ _ _ _ _ _ Hl Hi Hdesc Hc0)|].
    rewrite Hcalls. cbn. rewrite !List.filter_app, !length_app. cbn. lia. }
  destruct (check_cases self w)
    as [E | [E | [(layers & info & d & c & Hl & Hi & Hd & Hc & Hge) | [e E]]]].
  - rewrite create_flow_announced, Hfirst in E. symmetry in E.
    destruct (Hflow _ _ E) as [-> Hlen]. by split.
  - rewrite update_flow_announced, Hfirst in E. symmetry in E.
    destruct (Hflow _ _ E) as [-> Hlen]. by split.
  - rewrite (check_current _ _ _ _ _ _ Hl Hi Hd Hc Hge) in Hfirst.
    injection Hfirst as <-.
    assert (E : check_faas_supervisor_layer self
                  (logged (using_existent self) (listed w))
                = (Ok tt, logged (using_existent self)
                            (listed (logged (using_existent self) (listed w))))).
    { by apply (check_current _ _ layers info d c). }
    rewrite E. split; [reflexivity|]. cbn.
    rewrite !List.filter_app, !length_app. cbn. lia.
  - rewrite Hfirst in E. discriminate.
Qed.

(** ** The download *)

Lemma relevant_spec file :
  relevant file = true ↔
  ∃ parent_folder file_name,
    split1 "/" file = [parent_folder; file_name]
    ∧ (startswith file_name "extra" = true
       ∨ startswith file_name "faassupervisor" = true).
Proof.
  unfold relevant. split.
  - destruct (split1 "/" file) as [|a [|b [|? ?]]]; try discriminate.
    intros H%orb_true_iff. by exists a, b.
  - intros (a & b & -> & H). by apply orb_true_iff.
Qed.

Lemma prefix_trans (a b s : string) :
  String.prefix a b = true → String.prefix b s = true → String.prefix a s = true.
Proof.
  revert b s. induction a as [|c a IH]; intros b s; [by destruct s|].
  destruct b as [|c' b]; [discriminate|]. destruct s as [|c'' s]; [discriminate|].
  cbn. destruct (ascii_dec c c'); [subst c'|discriminate].
  destruct (ascii_dec c c''); [subst c''|discriminate]. apply IH.
Qed.

Lemma spec_relevant_relevant file : spec_relevant file = true → relevant file = true.
Proof.
  unfold spec_relevant, relevant.
  destruct (split1 "/" file) as [|a [|b [|? ?]]]; try discriminate.
  unfold startswith. rewrite !orb_true_iff. intros [H|H]; [left|right].
  - by apply (prefix_trans "extra" "extra/").
  - by apply (prefix_trans "faassupervisor" "faassupervisor/").
Qed.

(** The loop extracts the relevant names, in order, and nothing else. *)
Lemma download_loop_run ms names tmp p w :
  Forall has_top_folder names →
  download_loop ms names tmp p w =
    (run for_each (List.filter relevant names) (λ file, zip_extract ms file tmp) in
     ret (loop_parent names p)) w.
Proof.
  intros Hall. revert p w. induction Hall as [|n ns (a & b & Hs) _ IH]; intros p w.
  - reflexivity.
  - assert (Hrel : relevant n
                   = startswith b "extra" || startswith b "faassupervisor")
      by (unfold relevant; by rewrite Hs).
    assert (Htop : top_folder n = a) by (unfold top_folder; by rewrite Hs).
    change (loop_parent (n :: ns) p) with (loop_parent ns (Some (top_folder n))).
    rewrite Htop. cbn [download_loop List.filter]. rewrite Hs, Hrel.
    destruct (startswith b "extra" || startswith b "faassupervisor").
    + cbn [for_each]. rewrite bind_assoc. apply bind_ext. intros _ w'. apply IH.
    + apply IH.
Qed.

Lemma loop_parent_last names n p :
  loop_parent (names ++ [n]) p = Some (top_folder n).
Proof. unfold loop_parent. by rewrite fold_left_app. Qed.

Lemma extract_member_file base m f f' :
  extract_member base m f = Ok f' →
  endswith_slash m.1 = false →
  f' !! member_target base m.1 = Some (File m.2).
Proof.
  unfold extract_member. destruct (makedirs _ f) as [f1|e]; [|discriminate].
  intros H Hs. rewrite Hs in H. unfold write_file in H.
  destruct (negb _); [by destruct (path_exists f1 _)|].
  destruct (is_dir f1 _); [discriminate|].
  injection H as <-. apply lookup_insert_eq.
Qed.

Lemma makedirs_from_files at_ rest f f' q c :
  makedirs_from at_ rest f = Ok f' →
  f' !! q = Some (File c) → f !! q = Some (File c).
Proof.
  revert at_ f. induction rest as [|x rest IH]; intros at_ f; cbn.
  - by intros [= <-].
  - destruct (f !! (at_ ++ [x])) as [[?|]|] eqn:E; [discriminate| |];
      intros Hm Hq; specialize (IH _ _ Hm Hq);
      (destruct (decide (at_ ++ [x] = q)) as [<-|Hne];
       [rewrite lookup_insert_eq in IH; discriminate
       |by rewrite lookup_insert_ne in IH]).
Qed.

(** An extraction adds at most one file, the member at its place. *)
Lemma extract_member_files base m f f' q c :
  extract_member base m f = Ok f' →
  f' !! q = Some (File c) →
  f !! q = Some (File c) ∨ (q = member_target base m.1 ∧ c = m.2).
Proof.
  unfold extract_member.
  destruct (makedirs _ f) as [f1|e] eqn:Hm; [|discriminate].
  assert (Hold : f1 !! q = Some (File c) → f !! q = Some (File c))
    by apply (makedirs_from_files _ _ _ _ _ _ Hm).
  destruct (endswith_slash m.1).
  - destruct (is_dir f1 _); [intros [= <-]; auto|].
    destruct (path_exists f1 _); [discriminate|]. intros [= <-] Hq.
    destruct (decide (member_target base m.1 = q)) as [<-|Hne].
    + rewrite lookup_insert_eq in Hq. discriminate.
    + rewrite lookup_insert_ne in Hq by exact Hne. auto.
  - unfold write_file. destruct (negb _); [by destruct (path_exists f1 _)|].
    destruct (is_dir f1 _); [discriminate|]. intros [= <-] Hq.
    destruct (decide (member_target base m.1 = q)) as [<-|Hne].
    + rewrite lookup_insert_eq in Hq. injection Hq as <-. by right.
    + rewrite lookup_insert_ne in Hq by exact Hne. auto.
Qed.

Lemma getinfo_member ms name m :
  getinfo ms name = Some m → m ∈ ms ∧ m.1 = name.
Proof.
  unfold getinfo. intros H. apply List.find_some in H as [Hin Heq].
  split.
  - apply list_elem_of_In, List.in_rev, Hin.
  - by apply String.eqb_eq.
Qed.

(** A file found after the loop was there before it, or is a member
    that passes the test of the loop, at its place. *)
Lemma download_loop_files ms names tmp p w q c :
  fs (download_loop ms names tmp p w).2 !! q = Some (File c) →
  fs w !! q = Some (File c)
  ∨ ∃ m, m ∈ ms ∧ relevant m.1 = true
         ∧ q = member_target tmp m.1 ∧ c = m.2.
Proof.
  revert p w. induction names as [|n ns IH]; intros p w; cbn [download_loop];
    [by left|].
  destruct (split1 "/" n) as [|a [|b [|? ?]]] eqn:Hs; try (by left).
  assert (Hrel : relevant n
                 = startswith b "extra" || startswith b "faassupervisor")
    by (unfold relevant; by rewrite Hs).
  unfold bind. rewrite <- Hrel. destruct (relevant n) eqn:Hn.
  - unfold zip_extract. destruct (getinfo ms n) as [m|] eqn:Hg; [|by left].
    apply getinfo_member in Hg as [Hin Hname].
    unfold update_fs.
    destruct (extract_member tmp m (fs w)) as [f1|e] eqn:He; [|by left].
    intros Hq. destruct (IH _ _ Hq) as [Hold | Hnew]; [|by right].
    cbn in Hold. destruct (extract_member_files _ _ _ _ _ _ He Hold)
      as [H | [-> ->]]; [by left|].
    right. exists m. by rewrite Hname.
  - apply IH.
Qed.

Lemma download_files v tmp w ms q c :
  remote w !! supervisor_zip_url v = Some (Archive ms) →
  fs (_download_supervisor v tmp w).2 !! q = Some (File c) →
  fs w !! q = Some (File c)
  ∨ ∃ m, m ∈ ms ∧ relevant m.1 = true
         ∧ q = member_target tmp m.1 ∧ c = m.2.
Proof.
  intros Hr. unfold _download_supervisor, bind at 1, get_file.
  fold (supervisor_zip_url v). rewrite Hr. unfold bind at 1. cbn [open_zip ret].
  intros Hq. apply (download_loop_files ms ms.*1 tmp None w).
  unfold bind in Hq.
  destruct (download_loop ms ms.*1 tmp None w) as [[[parent|]|e] w1];
    exact Hq.
Qed.

(** C3 (as amended).  For an archive that has entries, all with a
    top-level folder, [_download_supervisor] extracts below the
    extraction directory, in archive order, exactly the entries whose
    path after the top-level folder starts with the text [extra] or the
    text [faassupervisor], whatever follows that text, and no other
    entry; it returns the top-level folder of the last entry.  The
    entries under [extra/] and [faassupervisor/] are among them, and an
    extracted file is written at its whole in-archive path below the
    extraction directory.  Whatever the names in the archive, a file
    found on disk after the download was there before it or is such an
    entry, at its place. *)
Theorem download_extracts_by_prefix v tmp w ms last_name :
  remote w !! supervisor_zip_url v = Some (Archive ms) →
  last ms.*1 = Some last_name →
  Forall has_top_folder ms.*1 →
  _download_supervisor v tmp w =
    (run for_each (List.filter relevant ms.*1)
                  (λ file, zip_extract ms file tmp) in
     ret (top_folder last_name)) w
  ∧ (∀ file, relevant file = true ↔
       ∃ parent_folder file_name,
         split1 "/" file = [parent_folder; file_name]
         ∧ (startswith file_name "extra" = true
            ∨ startswith file_name "faassupervisor" = true))
  ∧ (∀ file, spec_relevant file = true → relevant file = true)
  ∧ (∀ m f f', extract_member tmp m f = Ok f' →
       endswith_slash m.1 = false →
       f' !! member_target tmp m.1 = Some (File m.2))
  ∧ (∀ q c, fs (_download_supervisor v tmp w).2 !! q = Some (File c) →
       fs w !! q = Some (File c)
       ∨ ∃ m, m ∈ ms ∧ relevant m.1 = true
              ∧ q = member_target tmp m.1 ∧ c = m.2).
Proof.
  intros Hr Hlast Hall. split; [|split; [|split; [|split]]];
    [| | | |intros q c; by apply download_files].
  - unfold _download_supervisor, bind at 1, get_file.
    fold (supervisor_zip_url v). rewrite Hr. unfold bind at 1. cbn [open_zip ret].
    unfold bind at 1. rewrite (download_loop_run _ _ _ _ _ Hall).
    apply last_Some in Hlast as [names Hn]. rewrite Hn, loop_parent_last.
    unfold bind. destruct (for_each _ _ w) as [[[]|e] w1]; reflexivity.
  - apply relevant_spec.
  - apply spec_relevant_relevant.
  - apply extract_member_file.
Qed.

Lemma makedirs_from_raise at_ rest f e :
  makedirs_from at_ rest f = Raise e → e ≠ ArchiveFormatError.
Proof.
  revert at_ f. induction rest as [|c rest IH]; intros at_ f; cbn;
    [discriminate|].
  destruct (f !! (at_ ++ [c])) as [[?|]|]; try apply IH.
  intros [= <-]. discriminate.
Qed.

Lemma extract_member_raise base m f e :
  extract_member base m f = Raise e → e ≠ ArchiveFormatError.
Proof.
  unfold extract_member.
  destruct (makedirs _ f) as [f1|e1] eqn:Hm.
  - destruct (endswith_slash m.1).
    + destruct (is_dir f1 _); [discriminate|].
      destruct (path_exists f1 _); [|discriminate]. intros [= <-]. discriminate.
    + unfold write_file. destruct (negb _).
      * destruct (path_exists f1 _); intros [= <-]; discriminate.
      * destruct (is_dir f1 _); [intros [= <-]|]; discriminate.
  - intros [= <-]. by apply (makedirs_from_raise _ _ _ _ Hm).
Qed.

Lemma zip_extract_raise ms file tmp w e :
  (zip_extract ms file tmp w).1 = Raise e → e ≠ ArchiveFormatError.
Proof.
  unfold zip_extract. destruct (getinfo ms file) as [m|].
  - unfold update_fs. destruct (extract_member tmp m (fs w)) as [f|e0] eqn:He;
      [discriminate|].
    intros [= <-]. by apply (extract_member_raise _ _ _ _ He).
  - intros [= <-]. discriminate.
Qed.

Lemma download_loop_raise ms names tmp p w e :
  (download_loop ms names tmp p w).1 = Raise e → e ≠ ArchiveFormatError.
Proof.
  revert p w. induction names as [|n ns IH]; intros p w; cbn [download_loop];
    [discriminate|].
  destruct (split1 "/" n) as [|a [|b [|? ?]]]; try (intros [= <-]; discriminate).
  unfold bind.
  destruct (startswith b "extra" || startswith b "faassupervisor").
  - destruct (zip_extract ms n tmp w) as [[[]|e0] w1] eqn:Hz; [apply IH|].
    intros [= <-]. apply (zip_extract_raise ms n tmp w). by rewrite Hz.
  - apply IH.
Qed.

Lemma download_raise v tmp w e :
  (_download_supervisor v tmp w).1 = Raise e → e ≠ ArchiveFormatError.
Proof.
  unfold _download_supervisor, bind, get_file.
  destruct (remote w !! _) as [[bytes|ms]|]; cbn [open_zip raise ret];
    try (intros [= <-]; discriminate).
  destruct (download_loop ms ms.*1 tmp None w) as [[[parent|]|e0] w1] eqn:Hd;
    cbn.
  - discriminate.
  - intros [= <-]. discriminate.
  - intros [= <-]. apply (download_loop_raise ms ms.*1 tmp None w). by rewrite Hd.
Qed.

(** C8 (as amended).  [_download_supervisor] lets the error of the step
    that fails go through unchanged, before anything is extracted: the
    [FetchError] of the retrieval, and the [BadZipFile] of [zipfile]
    when the bytes are not an archive.  It does not check the layout of
    the archive and never raises [ArchiveFormatError]: without entries
    it fails with the [UnboundLocalError] of the unbound
    [parent_folder], and with a first entry that has no separator it
    fails with the [ValueError] of the unpacking. *)
Theorem download_failures v tmp w :
  (remote w !! supervisor_zip_url v = None →
     _download_supervisor v tmp w = (Raise (FetchError (supervisor_zip_url v)), w))
  ∧ (∀ bytes, remote w !! supervisor_zip_url v = Some (Data bytes) →
       _download_supervisor v tmp w = (Raise BadZipFile, w))
  ∧ (remote w !! supervisor_zip_url v = Some (Archive []) →
       _download_supervisor v tmp w
         = (Raise (UnboundLocalError "parent_folder"), w))
  ∧ (∀ file c ms,
       remote w !! supervisor_zip_url v = Some (Archive ((file, c) :: ms)) →
       ¬ has_top_folder file →
       _download_supervisor v tmp w
         = (Raise (ValueError "not enough values to unpack (expected 2, got 1)"), w))
  ∧ (_download_supervisor v tmp w).1 ≠ Raise ArchiveFormatError.
Proof.
  assert (Hnone : remote w !! supervisor_zip_url v = None →
     _download_supervisor v tmp w = (Raise (FetchError (supervisor_zip_url v)), w)).
  { intros Hr. unfold _download_supervisor, bind, get_file.
    fold (supervisor_zip_url v). by rewrite Hr. }
  assert (Hdata : ∀ bytes, remote w !! supervisor_zip_url v = Some (Data bytes) →
       _download_supervisor v tmp w = (Raise BadZipFile, w)).
  { intros bytes Hr. unfold _download_supervisor, bind, get_file.
    fold (supervisor_zip_url v). by rewrite Hr. }
  assert (Hempty : remote w !! supervisor_zip_url v = Some (Archive []) →
       _download_supervisor v tmp w
         = (Raise (UnboundLocalError "parent_folder"), w)).
  { intros Hr. unfold _download_supervisor, bind, get_file.
    fold (supervisor_zip_url v). by rewrite Hr. }
  assert (Hsep : ∀ file c ms,
       remote w !! supervisor_zip_url v = Some (Archive ((file, c) :: ms)) →
       ¬ has_top_folder file →
       _download_supervisor v tmp w
         = (Raise (ValueError "not enough values to unpack (expected 2, got 1)"), w)).
  { intros file c ms Hr Hno. unfold _download_supervisor, bind at 1, get_file.
    fold (supervisor_zip_url v). rewrite Hr. unfold bind at 1. cbn [open_zip ret].
    unfold bind at 1. cbn [fmap list_fmap fst download_loop].
    destruct (split1 "/" file) as [|a [|b [|? ?]]] eqn:Hs; try reflexivity.
    destruct Hno. by exists a, b. }
  repeat split; try assumption.
  intros H. by apply (download_raise _ _ _ _ H).
Qed.

(** ** The packaging *)

Lemma create_layer_publishes self w props w1 :
  package_layer self w = (Ok props, w1) →
  calls (_create_layer self w).2 = calls w ++ [PublishLayerVersion props].
Proof.
  intros Hp. destruct (local_package self w) as (_ & Hk & _).
  rewrite Hp in Hk. cbn in Hk.
  destruct (package_ok _ _ _ _ Hp) as (z & Hz & _).
  rewrite create_layer_steps. unfold bind. rewrite Hp.
  unfold create, call_client.
  destruct (publish_layer_version props (client w1)) as [[v|e] cl].
  - rewrite (delete_file_ok _ _ z) by exact Hz. cbn. by rewrite Hk.
  - cbn. by rewrite Hk.
Qed.

(** C2.  Let the release of the desired version be an archive with the
    two entries [faassupervisor/a.py] and [extra/bundle.zip] under its
    top-level folder, [bundle.zip] being an archive of one file
    [b.txt], and let the temporary root be empty.  Then the packaging
    succeeds: [a.py] has moved from the extraction directory to
    [python/faassupervisor] in the code directory, [b.txt] is at the
    root of the code directory, these are all the files of the code
    directory, the output archive has exactly the two entries
    [python/faassupervisor/a.py] and [b.txt], with the bytes they had,
    and this archive is the content that [_create_layer] publishes. *)
Theorem packaged_archive_layout self (w : world C) (a b : content) :
  remote w !! supervisor_zip_url (supervisor_version self)
    = Some (Archive
        [ ("faas-supervisor-1.5.0/faassupervisor/a.py", a);
          ("faas-supervisor-1.5.0/extra/bundle.zip", Archive [("b.txt", b)]) ]) →
  fs w = {[ ["tmp"] := Dir ]} →
  tmp_seq w = 0%nat →
  layer_name self = "faas-supervisor" →
  let packaged :=
    Archive [ ("python/faassupervisor/a.py", a); ("b.txt", b) ] in
  ∃ props w1,
    package_layer self w = (Ok props, w1)
    ∧ fs w1 !! ["tmp"; "tmp1"; "python"; "faassupervisor"; "a.py"]
        = Some (File a)
    ∧ fs w1 !! ["tmp"; "tmp0"; "faas-supervisor-1.5.0"; "faassupervisor"; "a.py"]
        = None
    ∧ fs w1 !! ["tmp"; "tmp1"; "b.txt"] = Some (File b)
    ∧ files_below ["tmp"; "tmp1"] (fs w1)
        ≡ₚ [ (["python"; "faassupervisor"; "a.py"], a); (["b.txt"], b) ]
    ∧ fs w1 !! ["tmp"; "faas-supervisor.zip"] = Some (File packaged)
    ∧ props !! "Content" = Some (PDict {[ "ZipFile" := ABytes packaged ]})
    ∧ calls (_create_layer self w).2 = calls w ++ [PublishLayerVersion props].
Proof.
  intros Hr Hfs Hseq Hname packaged.
  destruct w as [rem f seq cl ks lg]. cbn in Hr, Hfs, Hseq. subst f seq.
  destruct self as [ln sv li]. cbn in Hr, Hname. subst ln.
  set (self := {| layer_name := "faas-supervisor"; supervisor_version := sv;
                  license_info := li |}).
  set (w := World rem {[ ["tmp"] := Dir ]} 0 cl ks lg).
  set (props := {[ "LayerName" := PAtom (AStr "faas-supervisor");
                   "Description" := PAtom (AStr sv);
                   "Content" := PDict {[ "ZipFile" := ABytes packaged ]};
                   "LicenseInfo" := li ]} : dict).
  set (disk := list_to_map
    [ (["tmp"], Dir);
      (["tmp"; "tmp0"], Dir);
      (["tmp"; "tmp0"; "faas-supervisor-1.5.0"], Dir);
      (["tmp"; "tmp0"; "faas-supervisor-1.5.0"; "extra"], Dir);
      (["tmp"; "tmp0"; "faas-supervisor-1.5.0"; "extra"; "bundle.zip"],
       File (Archive [("b.txt", b)]));
      (["tmp"; "tmp1"], Dir);
      (["tmp"; "tmp1"; "b.txt"], File b);
      (["tmp"; "tmp1"; "python"], Dir);
      (["tmp"; "tmp1"; "python"; "faassupervisor"], Dir);
      (["tmp"; "tmp1"; "python"; "faassupervisor"; "a.py"], File a);
      (["tmp"; "faas-supervisor.zip"], File packaged) ] : filesystem).
  assert (Hp : package_layer self w = (Ok props, World rem disk 2 cl ks lg)).
  { unfold package_layer, bind at 1.
    assert (H1 : _create_tmp_folders w
      = (Ok (["tmp"; "tmp0"], ["tmp"; "tmp1"]),
         World rem (<[ ["tmp"; "tmp1"] := Dir ]>
                      (<[ ["tmp"; "tmp0"] := Dir ]> {[ ["tmp"] := Dir ]}))
               2 cl ks lg)) by (vm_compute; reflexivity).
    rewrite H1. unfold bind at 1, _download_supervisor, bind at 1, get_file.
    cbn [remote supervisor_version self]. fold (supervisor_zip_url sv).
    rewrite Hr. vm_compute. reflexivity. }
  exists props, (World rem disk 2 cl ks lg).
  split; [exact Hp|].
  split; [vm_compute; reflexivity|]. split; [vm_compute; reflexivity|].
  split; [vm_compute; reflexivity|].
  split; [vm_compute; apply Permutation_refl|].
  split; [vm_compute; reflexivity|]. split.
  - subst props. by simplify_map_eq.
  - exact (create_layer_publishes _ _ _ _ Hp).
Qed.

End Flow_properties.

(** * Further properties of the module *)

Section Layer_calls.

Context `{U : Utils} {C : Type} `{LC : LambdaClient C}.

Implicit Types (w : world C) (name : pyval) (layers : list dict)
  (self : LambdaLayers) (kwargs : dict).

Lemma find_world name w : (_find name w).2 = listed w.
Proof.
  unfold _find, bind, client_list_layers, call_client.
  by destruct (list_layers (client w)).
Qed.

Lemma latest_info_world name w : (get_latest_layer_info name w).2 = listed w.
Proof.
  unfold get_latest_layer_info, bind. pose proof (find_world name w) as H.
  destruct (_find name w) as [[layer|e] w1]; cbn in H; subst w1; [|done].
  by destruct (dict_truthy layer).
Qed.

(** X1.  The queries of [Layer] and the getter of the ARN only list the
    registry: whatever they return or raise, they leave the world as
    one listing leaves it, with the same client, disk and log and no
    other call. *)
Theorem queries_only_list name self w :
  (_find name w).2 = listed w
  ∧ (exists_ name w).2 = listed w
  ∧ (get_latest_layer_info name w).2 = listed w
  ∧ (get_latest_supervisor_layer_arn self w).2 = listed w.
Proof.
  split; [apply find_world|]. split; [|split; [apply latest_info_world|]].
  - unfold exists_, bind. pose proof (find_world name w) as H.
    destruct (_find name w) as [[layer|e] w1]; cbn in H; subst w1; [|done].
    by destruct (dict_truthy layer).
  - unfold get_latest_supervisor_layer_arn, bind.
    pose proof (latest_info_world (AStr (layer_name self)) w) as H.
    destruct (get_latest_layer_info _ w) as [[info|e] w1]; cbn in H; subst w1;
      done.
Qed.

(** X2.  When the listing of the registry raises, every operation that
    starts by listing raises the same exception right after that one
    call: the queries, the getter of the ARN, the check, which
    publishes nothing, and the deletion without a version, which
    deletes nothing. *)
Theorem listing_error_propagates self kwargs name w e :
  list_layers (client w) = Raise e →
  exists_ name w = (Raise e, listed w)
  ∧ get_latest_layer_info name w = (Raise e, listed w)
  ∧ get_latest_supervisor_layer_arn self w = (Raise e, listed w)
  ∧ check_faas_supervisor_layer self w = (Raise e, listed w)
  ∧ (kwargs !! "name" = Some name → kwargs !! "version" = None →
     delete_ kwargs w = (Raise e, listed w)).
Proof.
  intros Hl.
  assert (Hi : ∀ n, get_latest_layer_info n w = (Raise e, listed w))
    by (intros n; by apply latest_info_raise).
  split; [|split; [apply Hi|split; [|split]]].
  - unfold exists_, bind. by rewrite (find_raise _ _ _ Hl).
  - unfold get_latest_supervisor_layer_arn, bind. by rewrite Hi.
  - unfold check_faas_supervisor_layer, bind. by rewrite Hi.
  - intros Hname Hver. unfold delete_, bind, lift, py_getitem.
    rewrite Hname, Hver. cbn. unfold bind. by rewrite Hi.
Qed.

(** X3.  A listed record that answers to the layer name and is not
    empty, but has no [LatestMatchingVersion], exists for [exists] and
    makes everything that reads its latest information raise
    [KeyError] after the listing: the getter of the ARN, the check,
    which publishes nothing, and the deletion without a version, which
    deletes nothing. *)
Theorem missing_latest_version_raises self kwargs w layers pre layer post :
  list_layers (client w) = Ok layers →
  let name := PAtom (AStr (layer_name self)) in
  let err := KeyError "LatestMatchingVersion" in
  layers = pre ++ layer :: post →
  absent pre name →
  answers_to name layer →
  layer ≠ ∅ →
  layer !! "LatestMatchingVersion" = None →
  exists_ name w = (Ok true, listed w)
  ∧ get_latest_layer_info name w = (Raise err, listed w)
  ∧ get_latest_supervisor_layer_arn self w = (Raise err, listed w)
  ∧ check_faas_supervisor_layer self w = (Raise err, listed w)
  ∧ (kwargs !! "name" = Some name → kwargs !! "version" = None →
     delete_ kwargs w = (Raise err, listed w)).
Proof.
  intros Hl name err -> Hpre Hans Hne Hv.
  assert (Hf : find_in (pre ++ layer :: post) name = layer)
    by (by apply find_in_skip).
  assert (Hi : get_latest_layer_info name w = (Raise err, listed w)).
  { apply (latest_info_missing _ _ _ Hl); by rewrite Hf. }
  split; [|split; [exact Hi|split; [|split]]].
  - rewrite (exists_run _ _ _ Hl), Hf.
    by rewrite (proj2 (dict_truthy_true _) Hne).
  - unfold get_latest_supervisor_layer_arn, bind. fold name. by rewrite Hi.
  - unfold check_faas_supervisor_layer, bind. fold name. by rewrite Hi.
  - intros Hname Hver. unfold delete_, bind, lift, py_getitem.
    rewrite Hname, Hver. cbn. unfold bind. by rewrite Hi.
Qed.

(** X4.  [_find] returns the empty dictionary when no listed record
    answers to the name, and otherwise the first listed record that
    does: with several records of one name, the later ones are never
    returned. *)
Theorem find_returns_first name w layers :
  list_layers (client w) = Ok layers →
  ∃ layer,
    _find name w = (Ok layer, listed w)
    ∧ ((absent layers name ∧ layer = ∅)
       ∨ (∃ pre post, layers = pre ++ layer :: post
            ∧ absent pre name ∧ answers_to name layer))
    ∧ (∀ pre first mid post,
         layers = pre ++ first :: mid ++ post →
         absent pre name → answers_to name first → layer = first).
Proof.
  intros Hl. exists (find_in layers name).
  split; [by apply find_run|]. split.
  - destruct (find_in_first name layers) as [[Hn He] | H]; [by left | by right].
  - intros pre first mid post -> Hpre Hans. by apply find_in_skip.
Qed.

(** X5.  The latest information may lack its [LayerVersionArn]: the
    getter then returns the empty string, as it does when there is no
    layer at all. *)
Theorem latest_arn_defaults self w layers info :
  list_layers (client w) = Ok layers →
  latest_info_is layers (AStr (layer_name self)) info →
  info !! "LayerVersionArn" = None →
  get_latest_supervisor_layer_arn self w = (Ok (PAtom (AStr "")), listed w).
Proof.
  intros Hl Hi Harn. unfold get_latest_supervisor_layer_arn, bind.
  rewrite (latest_info_of_first _ _ _ _ Hl Hi).
  unfold lift, py_get. by rewrite Harn.
Qed.

Lemma delete_calls kwargs w :
  let w' := (delete_ kwargs w).2 in
  fs w' = fs w ∧ log w' = log w
  ∧ ((calls w' = calls w ∧ client w' = client w
      ∧ ∃ e, (delete_ kwargs w).1 = Raise e)
     ∨ (calls w' = calls w ++ [ListLayers] ∧ client w' = client w
        ∧ ∃ e, (delete_ kwargs w).1 = Raise e)
     ∨ (∃ args, calls w' = calls w ++ [DeleteLayerVersion args])
     ∨ (∃ args, calls w' = calls w ++ [ListLayers; DeleteLayerVersion args])).
Proof.
  cbn zeta. unfold delete_, bind, lift, py_getitem.
  destruct (kwargs !! "name") as [name|]; cbn.
  2:{ split; [done|]. split; [done|]. left. eauto. }
  destruct (kwargs !! "version") as [version|]; cbn.
  - destruct (py_int version) as [n|e]; cbn.
    + unfold call_client; cbn.
        match goal with
        | |- context [delete_layer_version ?a ?c] =>
            destruct (delete_layer_version a c)
        end. cbn.
      split; [done|]. split; [done|]. right; right; left. eauto.
    + split; [done|]. split; [done|]. left. eauto.
  - unfold bind. pose proof (latest_info_world name w) as Hw.
    destruct (get_latest_layer_info name w) as [[info|e] w1]; cbn in Hw;
      subst w1; cbn.
    + destruct (py_get info "Version" (AInt (-1))) as [v|e]; cbn.
      * unfold call_client; cbn.
        match goal with
        | |- context [delete_layer_version ?a ?c] =>
            destruct (delete_layer_version a c)
        end. cbn.
        split; [done|]. split; [done|]. right; right; right. eexists.
        by rewrite <- app_assoc.
      * split; [done|]. split; [done|]. right; left. eauto.
    + split; [done|]. split; [done|]. right; left. eauto.
Qed.

(** X6.  Whatever its arguments and the state of the registry,
    [delete] leaves the disk and the log alone, never publishes, and
    makes at most one deletion, after at most one listing; when it
    makes no deletion it has raised, and the client is as it was.
    Without a [name] it raises [KeyError] before anything else, even
    before it looks at the version. *)
Theorem delete_call_discipline kwargs w :
  let w' := (delete_ kwargs w).2 in
  (fs w' = fs w ∧ log w' = log w
   ∧ ((calls w' = calls w ∧ client w' = client w
       ∧ ∃ e, (delete_ kwargs w).1 = Raise e)
      ∨ (calls w' = calls w ++ [ListLayers] ∧ client w' = client w
         ∧ ∃ e, (delete_ kwargs w).1 = Raise e)
      ∨ (∃ args, calls w' = calls w ++ [DeleteLayerVersion args])
      ∨ (∃ args, calls w' = calls w ++ [ListLayers; DeleteLayerVersion args])))
  ∧ List.filter is_publish (calls w') = List.filter is_publish (calls w)
  ∧ (kwargs !! "name" = None → delete_ kwargs w = (Raise (KeyError "name"), w)).
Proof.
  cbn zeta. pose proof (delete_calls kwargs w) as H. cbn zeta in H.
  split; [exact H|]. split.
  - destruct H as (_ & _ & [(-> & _) | [(-> & _) | [[a ->] | [a ->]]]]);
      rewrite ?List.filter_app; cbn; by rewrite ?app_nil_r.
  - intros Hn. unfold delete_, bind, lift, py_getitem. by rewrite Hn.
Qed.

(** X17.  A first record of the name whose [LatestMatchingVersion] is
    not a dictionary: the getter of the ARN and the deletion without a
    version ask it for [get] and raise [AttributeError] after the
    listing, with no deletion; the check raises nothing of the kind
    when the value is false ([None], zero, an empty string): it takes
    the layer for missing and goes the way of creation. *)
Theorem latest_version_not_a_dict self kwargs w layers (a : atom) :
  list_layers (client w) = Ok layers →
  let name := PAtom (AStr (layer_name self)) in
  find_in layers name !! "LatestMatchingVersion" = Some (PAtom a) →
  get_latest_supervisor_layer_arn self w
    = (Raise (AttributeError "get"), listed w)
  ∧ (kwargs !! "name" = Some name → kwargs !! "version" = None →
     delete_ kwargs w = (Raise (AttributeError "get"), listed w))
  ∧ (py_truthy a = false →
     check_faas_supervisor_layer self w
     = _create_supervisor_layer self (listed w)).
Proof.
  intros Hl name Hv.
  assert (Hi : get_latest_layer_info name w = (Ok (PAtom a), listed w))
    by (by apply (latest_info_found _ _ _ _ Hl)).
  split; [|split].
  - unfold get_latest_supervisor_layer_arn, bind. fold name. by rewrite Hi.
  - intros Hname Hver. unfold delete_, bind, lift, py_getitem.
    rewrite Hname, Hver. cbn. unfold bind. by rewrite Hi.
  - intros Hf. unfold check_faas_supervisor_layer, bind at 1. fold name.
    rewrite Hi. unfold bind at 1. by rewrite Hf.
Qed.

End Layer_calls.

Section Flow_calls.

Context `{U : Utils} {C : Type} `{LC : LambdaClient C}.

Implicit Types (w : world C) (self : LambdaLayers).

Lemma create_layer_log self w : log (_create_layer self w).2 = log w.
Proof.
  destruct (create_layer_cases self w)
    as [(e & w1 & -> & _ & Hlog)
       | (props & w1 & z & _ & _ & Hlog & _ & _ & _ & _
          & [(e & cl & _ & ->) | (v & cl & _ & ->)])]; exact Hlog.
Qed.

Lemma announced_log before after self w :
  log (announced before after self w).2
  = log w ++ before
      :: match (announced before after self w).1 with
         | Ok _ => [after]
         | Raise _ => []
         end.
Proof.
  unfold announced, bind, logger_info.
  pose proof (create_layer_log self (logged before w)) as H.
  destruct (_create_layer self (logged before w)) as [[[]|e] w1];
    cbn in H |- *; rewrite H; [|done].
  by rewrite <- app_assoc.
Qed.


(** X8.  Whatever the registry holds, [check_faas_supervisor_layer]
    first lists it, then makes at most one more call, a publication of
    the layer with the desired version as [Description]; it never
    deletes a version.  When it does not publish, the client is left
    as it was. *)
Theorem check_call_discipline self w :
  let w' := (check_faas_supervisor_layer self w).2 in
  ((calls w' = calls w ++ [ListLayers] ∧ client w' = client w)
   ∨ ∃ props : dict,
       calls w' = calls w ++ [ListLayers; PublishLayerVersion props]
       ∧ props !! "LayerName" = Some (PAtom (AStr (layer_name self)))
       ∧ props !! "Description" = Some (PAtom (AStr (supervisor_version self)))
       ∧ client w' = (publish_layer_version props (client w)).2)
  ∧ List.filter is_delete (calls w') = List.filter is_delete (calls w).
Proof.
  cbn zeta.
  assert (H : (calls (check_faas_supervisor_layer self w).2
                 = calls w ++ [ListLayers]
               ∧ client (check_faas_supervisor_layer self w).2 = client w)
   ∨ ∃ props : dict,
       calls (check_faas_supervisor_layer self w).2
         = calls w ++ [ListLayers; PublishLayerVersion props]
       ∧ props !! "LayerName" = Some (PAtom (AStr (layer_name self)))
       ∧ props !! "Description" = Some (PAtom (AStr (supervisor_version self)))
       ∧ client (check_faas_supervisor_layer self w).2
           = (publish_layer_version props (client w)).2).
  { assert (Hflow : ∀ before after,
      check_faas_supervisor_layer self w = announced before after self (listed w) →
      (calls (check_faas_supervisor_layer self w).2 = calls w ++ [ListLayers]
       ∧ client (check_faas_supervisor_layer self w).2 = client w)
      ∨ ∃ props : dict,
          calls (check_faas_supervisor_layer self w).2
            = calls w ++ [ListLayers; PublishLayerVersion props]
          ∧ props !! "LayerName" = Some (PAtom (AStr (layer_name self)))
          ∧ props !! "Description"
              = Some (PAtom (AStr (supervisor_version self)))
          ∧ client (check_faas_supervisor_layer self w).2
              = (publish_layer_version props (client w)).2).
    { intros before after ->.
      destruct (announced_at_most_once before after self (listed w))
        as [(props & Hk & Hn & Hd & Hc) | [[Hk Hc] _]].
      - right. exists props. rewrite Hk, Hc. cbn. by rewrite <- app_assoc.
      - left. by rewrite Hk, Hc. }
    destruct (check_cases self w)
      as [E | [E | [(layers & info & d & c & Hl & Hi & Hd & Hc & Hge) | [e E]]]].
    - apply (Hflow _ _ E).
    - apply (Hflow _ _ E).
    - left. by rewrite (check_current _ _ _ _ _ _ Hl Hi Hd Hc Hge).
    - left. by rewrite E. }
  split; [exact H|].
  destruct H as [[-> _] | (props & -> & _)];
    rewrite List.filter_app; cbn; by rewrite app_nil_r.
Qed.

(** X9.  [_create_layer] makes no call at all, or exactly one: a
    publication whose arguments are the four of
    [_get_supervisor_layer_props] and nothing else, with the layer
    name, the desired version and the license information of the
    object, and as content the bytes of the output archive that the
    packaging left on disk. *)
Theorem create_layer_publication self w :
  (calls (_create_layer self w).2 = calls w
   ∧ ∃ e, (_create_layer self w).1 = Raise e)
  ∨ ∃ zip_file,
      fs (package_layer self w).2 !! layer_zip_path_of self
        = Some (File zip_file)
      ∧ calls (_create_layer self w).2
        = calls w ++ [PublishLayerVersion
            {[ "LayerName" := PAtom (AStr (layer_name self));
               "Description" := PAtom (AStr (supervisor_version self));
               "Content" := PDict {[ "ZipFile" := ABytes zip_file ]};
               "LicenseInfo" := license_info self ]}].
Proof.
  destruct (package_layer self w) as [[props|e] w1] eqn:Hp.
  - right. destruct (package_ok _ _ _ _ Hp) as (z & Hz & Hprops).
    exists z. split; [exact Hz|]. rewrite <- Hprops.
    exact (create_layer_publishes _ _ _ _ Hp).
  - left. rewrite create_layer_steps. unfold bind. rewrite Hp. cbn.
    destruct (local_package self w) as (_ & Hk & _). rewrite Hp in Hk.
    split; [exact Hk | by exists e].
Qed.

End Flow_calls.

Section Download_properties.

Context `{U : Utils} {C : Type} `{LC : LambdaClient C}.

Implicit Types (w : world C) (f : filesystem) (q : path).

Lemma split1_shape (s : string) :
  (has_slash s = false ∧ split1 "/" s = [s])
  ∨ (∃ p r, split1 "/" s = [p; r] ∧ s = p +:+ "/" +:+ r
            ∧ has_slash p = false ∧ has_slash s = true).
Proof.
  induction s as [|c s IH]; [by left|].
  cbn [split1 has_slash]. destruct (Ascii.eqb_spec c "/") as [->|Hc].
  - right. by exists "", s.
  - destruct IH as [[Hs ->] | (p & r & -> & -> & Hp & Hs)].
    + left. by rewrite Hs.
    + right. exists (String c p), r. cbn [has_slash].
      rewrite (proj2 (Ascii.eqb_neq c "/") Hc), Hp, Hs. done.
Qed.

(** X10.  The unpacking of [file.split("/", 1)] succeeds exactly for the
    names that contain a slash; it then cuts the name at its first
    slash: the two parts joined by a slash are the name, and the
    parent folder contains no slash.  A name without a slash is
    returned alone, which the unpacking rejects. *)
Theorem split_at_first_slash (file : string) :
  (has_top_folder file ↔ has_slash file = true)
  ∧ (has_slash file = false → split1 "/" file = [file])
  ∧ (∀ parent_folder file_name,
       split1 "/" file = [parent_folder; file_name] →
       file = parent_folder +:+ "/" +:+ file_name
       ∧ has_slash parent_folder = false).
Proof.
  destruct (split1_shape file) as [[Hs E] | (p & r & E & Hf & Hp & Hs)].
  - split; [|split].
    + split; [|congruence]. intros (a & b & H). rewrite E in H. discriminate.
    + done.
    + intros a b H. rewrite E in H. discriminate.
  - split; [|split].
    + split; [done|]. intros _. by exists p, r.
    + congruence.
    + intros a b H. rewrite E in H. by injection H as <- <-.
Qed.

(** What [os.makedirs] and an extraction leave in place. *)
Lemma makedirs_from_keeps at_ rest f f' q nd :
  makedirs_from at_ rest f = Ok f' →
  f !! q = Some nd → f' !! q = Some nd.
Proof.
  revert at_ f. induction rest as [|x rest IH]; intros at_ f; cbn.
  - by intros [= <-].
  - destruct (f !! (at_ ++ [x])) as [[?|]|] eqn:E; [discriminate| |];
      intros Hm Hq; apply (IH _ _ Hm);
      (destruct (decide (at_ ++ [x] = q)) as [<-|Hne];
       [rewrite lookup_insert_eq; congruence
       |by rewrite lookup_insert_ne]).
Qed.

Lemma extract_member_keeps base m f f' q :
  extract_member base m f = Ok f' →
  (f !! q = Some Dir → f' !! q = Some Dir)
  ∧ (∀ c, f !! q = Some (File c) → ∃ c', f' !! q = Some (File c')).
Proof.
  unfold extract_member.
  destruct (makedirs _ f) as [f1|e] eqn:Hm; [|discriminate].
  assert (Hk : ∀ nd, f !! q = Some nd → f1 !! q = Some nd)
    by (intros nd; apply (makedirs_from_keeps _ _ _ _ _ _ Hm)).
  destruct (endswith_slash m.1).
  - destruct (is_dir f1 _); [intros [= <-]; split; eauto|].
    destruct (path_exists f1 (member_target base m.1)) eqn:Hex; [discriminate|].
    intros [= <-].
    assert (Hne : ∀ nd, f !! q = Some nd → member_target base m.1 ≠ q).
    { intros nd Hq <-. apply Hk in Hq. unfold path_exists in Hex.
      destruct (member_target base m.1); [discriminate|].
      apply bool_decide_eq_false in Hex. apply Hex. eauto. }
    split; [intros Hq | intros c Hq; exists c];
      (rewrite lookup_insert_ne; [by apply Hk | by eapply Hne]).
  - unfold write_file. destruct (negb _); [by destruct (path_exists f1 _)|].
    destruct (is_dir f1 (member_target base m.1)) eqn:Hd; [discriminate|].
    intros [= <-]. split.
    + intros Hq. apply Hk in Hq.
      destruct (decide (member_target base m.1 = q)) as [<-|Hne];
        [|by rewrite lookup_insert_ne].
      unfold is_dir in Hd. destruct (member_target base m.1); [discriminate|].
      by rewrite Hq in Hd.
    + intros c Hq. apply Hk in Hq.
      destruct (decide (member_target base m.1 = q)) as [<-|Hne].
      * eexists. apply lookup_insert_eq.
      * exists c. by rewrite lookup_insert_ne.
Qed.

Lemma download_loop_keeps ms names tmp p w q :
  (fs w !! q = Some Dir → fs (download_loop ms names tmp p w).2 !! q = Some Dir)
  ∧ (∀ c, fs w !! q = Some (File c) →
       ∃ c', fs (download_loop ms names tmp p w).2 !! q = Some (File c')).
Proof.
  revert p w. induction names as [|n ns IH]; intros p w; cbn [download_loop];
    [split; eauto|].
  destruct (split1 "/" n) as [|a [|b [|? ?]]]; try (cbn; split; by eauto).
  unfold bind.
  destruct (startswith b "extra" || startswith b "faassupervisor");
    [|apply IH].
  unfold zip_extract. destruct (getinfo ms n) as [m|]; [|cbn; split; eauto].
  unfold update_fs.
  destruct (extract_member tmp m (fs w)) as [f1|e] eqn:He; [|cbn; split; eauto].
  destruct (extract_member_keeps _ _ _ _ q He) as [Hd Hf].
  destruct (IH (Some a) (set_fs f1 w)) as [IHd IHf]. split.
  - intros Hq. apply IHd, Hd, Hq.
  - intros c Hq. destruct (Hf c Hq) as [c' Hc']. apply (IHf c'), Hc'.
Qed.

(** X11.  The download only adds to the disk: whatever it returns or
    raises, a directory that was there is still a directory and a file
    that was there is still a file at the same path; it removes
    nothing, and the registry client, its calls and the log are as
    they were. *)
Theorem download_only_adds v tmp w :
  let w' := (_download_supervisor v tmp w).2 in
  (∀ q, fs w !! q = Some Dir → fs w' !! q = Some Dir)
  ∧ (∀ q c, fs w !! q = Some (File c) → ∃ c', fs w' !! q = Some (File c'))
  ∧ client w' = client w ∧ calls w' = calls w ∧ log w' = log w.
Proof.
  cbn zeta.
  assert (H : ∀ q,
    (fs w !! q = Some Dir → fs (_download_supervisor v tmp w).2 !! q = Some Dir)
    ∧ (∀ c, fs w !! q = Some (File c) →
         ∃ c', fs (_download_supervisor v tmp w).2 !! q = Some (File c'))).
  { intros q. unfold _download_supervisor, bind, get_file.
    destruct (remote w !! _) as [[bytes|ms]|]; cbn [open_zip raise ret];
      try (cbn; split; by eauto).
    pose proof (download_loop_keeps ms ms.*1 tmp None w q) as Hk.
    destruct (download_loop ms ms.*1 tmp None w) as [[[parent|]|e] w1];
      exact Hk. }
  split; [intros q; apply H|]. split; [intros q; apply H|].
  apply local_download.
Qed.

Lemma download_loop_stops ms pre bad post tmp p w :
  Forall has_top_folder pre →
  ¬ has_top_folder bad →
  download_loop ms (pre ++ bad :: post) tmp p w =
    (run for_each (List.filter relevant pre) (λ file, zip_extract ms file tmp) in
     raise (ValueError "not enough values to unpack (expected 2, got 1)")) w.
Proof.
  intros Hpre Hbad. revert p w.
  induction Hpre as [|n ns (a & b & Hs) _ IH]; intros p w.
  - cbn. destruct (split1 "/" bad) as [|a [|b [|? ?]]] eqn:Hs; try reflexivity.
    destruct Hbad. by exists a, b.
  - assert (Hrel : relevant n
                   = startswith b "extra" || startswith b "faassupervisor")
      by (unfold relevant; by rewrite Hs).
    cbn [app download_loop List.filter]. rewrite Hs, Hrel.
    destruct (startswith b "extra" || startswith b "faassupervisor").
    + cbn [for_each]. rewrite bind_assoc. apply bind_ext. intros _ w'. apply IH.
    + apply IH.
Qed.

(** X12.  The download does not undo what it has done: when an entry
    of the archive has no top-level folder, the entries before it that
    pass the test are extracted, in order, and only then the unpacking
    raises [ValueError]; the entries after it are never looked at, and
    the function does not return. *)
Theorem download_stops_at_flat_entry v tmp w ms pre bad post :
  remote w !! supervisor_zip_url v = Some (Archive ms) →
  ms.*1 = pre ++ bad :: post →
  Forall has_top_folder pre →
  ¬ has_top_folder bad →
  _download_supervisor v tmp w =
    (run for_each (List.filter relevant pre) (λ file, zip_extract ms file tmp) in
     raise (ValueError "not enough values to unpack (expected 2, got 1)")) w
  ∧ ∃ e, (_download_supervisor v tmp w).1 = Raise e.
Proof.
  intros Hr Hn Hpre Hbad.
  assert (E : _download_supervisor v tmp w =
    (run for_each (List.filter relevant pre) (λ file, zip_extract ms file tmp) in
     raise (ValueError "not enough values to unpack (expected 2, got 1)")) w).
  { unfold _download_supervisor, bind at 1, get_file.
    fold (supervisor_zip_url v). rewrite Hr. unfold bind at 1. cbn [open_zip ret].
    unfold bind at 1. rewrite Hn, (download_loop_stops _ _ _ _ _ _ _ Hpre Hbad).
    unfold bind. by destruct (for_each _ _ w) as [[[]|e] w1]. }
  split; [exact E|]. rewrite E. unfold bind.
  destruct (for_each _ _ w) as [[[]|e] w1]; cbn; eauto.
Qed.

(** X13.  A release in which no entry passes the test (only
    documentation, say) is downloaded without a change on disk, and
    then the move of [_copy_supervisor_files] raises
    [FileNotFoundError] for the folder it expects, provided nothing was
    at that place. *)
Theorem irrelevant_release_fails_at_move v tmp code w ms last_name :
  remote w !! supervisor_zip_url v = Some (Archive ms) →
  last ms.*1 = Some last_name →
  Forall has_top_folder ms.*1 →
  List.filter relevant ms.*1 = [] →
  let supervisor_path :=
    join_paths tmp [top_folder last_name; "faassupervisor"] in
  fs w !! supervisor_path = None →
  _download_supervisor v tmp w = (Ok (top_folder last_name), w)
  ∧ (let* parent_folder := _download_supervisor v tmp in
     _copy_supervisor_files parent_folder tmp code) w
    = (Raise (FileNotFoundError supervisor_path), w).
Proof.
  intros Hr Hlast Hall Hnone supervisor_path Hsrc.
  assert (E : _download_supervisor v tmp w = (Ok (top_folder last_name), w)).
  { unfold _download_supervisor, bind at 1, get_file.
    fold (supervisor_zip_url v). rewrite Hr. unfold bind at 1. cbn [open_zip ret].
    unfold bind at 1. rewrite (download_loop_run _ _ _ _ _ Hall), Hnone.
    apply last_Some in Hlast as [names Hn]. rewrite Hn, loop_parent_last.
    reflexivity. }
  split; [exact E|]. unfold bind. rewrite E.
  unfold _copy_supervisor_files, update_fs, shutil_move.
  fold supervisor_path. by rewrite Hsrc.
Qed.

Lemma split1_app (p s : string) :
  has_slash p = false → split1 "/" (p +:+ "/" +:+ s) = [p; s].
Proof.
  induction p as [|c p IH]; [done|]. cbn [has_slash].
  intros [Hc Hp]%orb_false_elim.
  change (split1 "/" (String c (p +:+ "/" +:+ s)) = [String c p; s]).
  unfold split1; fold split1. by rewrite Hc, (IH Hp).
Qed.

Lemma split_all_app (p s : string) :
  has_slash p = false →
  split_all "/" (p +:+ "/" +:+ s) = p :: split_all "/" s.
Proof.
  induction p as [|c p IH]; [done|]. cbn [has_slash].
  intros [Hc Hp]%orb_false_elim.
  change (split_all "/" (String c (p +:+ "/" +:+ s))
          = String c p :: split_all "/" s).
  unfold split_all at 1; fold split_all. by rewrite Hc, (IH Hp).
Qed.

Lemma split_all_plain (p : string) :
  has_slash p = false → split_all "/" p = [p].
Proof.
  induction p as [|c p IH]; [done|]. cbn [has_slash].
  intros [Hc Hp]%orb_false_elim.
  unfold split_all; fold split_all. by rewrite Hc, (IH Hp).
Qed.

Lemma startswith_slash_plain (p : string) :
  has_slash p = false → startswith p "/" = false.
Proof.
  destruct p as [|c p]; [done|]. cbn [has_slash].
  intros [Hc Hp]%orb_false_elim. unfold startswith.
  change (String.prefix "/" (String c p))
    with (if Ascii.ascii_dec "/" c then String.prefix "" p else false).
  destruct (Ascii.ascii_dec "/" c) as [<-|]; [discriminate|done].
Qed.

Lemma kept_component (x : string) :
  x ∉ [""; "."; ".."] ↔ x ≠ "" ∧ x ≠ "." ∧ x ≠ "..".
Proof.
  rewrite !not_elem_of_cons. split.
  - by intros (? & ? & ? & _).
  - intros (? & ? & ?). repeat split; try done. apply not_elem_of_nil.
Qed.

Lemma enter_kept tmp (x : string) :
  x ≠ ".." → enter tmp x = tmp ++ filter (λ x, x ∉ [""; "."; ".."]) [x].
Proof.
  intros Hdots. unfold enter. rewrite filter_cons, filter_nil.
  destruct (String.eqb_spec x "") as [->|H1].
  { rewrite decide_False, app_nil_r; [done|]. rewrite kept_component. tauto. }
  destruct (String.eqb_spec x ".") as [->|H2].
  { rewrite decide_False, app_nil_r; [done|]. rewrite kept_component. tauto. }
  destruct (String.eqb_spec x "..") as [->|H3]; [done|].
  rewrite decide_True; [done|]. by rewrite kept_component.
Qed.

(** The folder that [_copy_supervisor_files] moves is where the
    extraction puts the entries of [faassupervisor/]. *)
Lemma supervisor_path_target tmp (parent rest : string) :
  has_slash parent = false → parent ≠ ".." →
  member_target tmp (parent +:+ "/faassupervisor/" +:+ rest)
  = join_paths tmp [parent; "faassupervisor"]
    ++ filter (λ x, x ∉ [""; "."; ".."]) (split_all "/" rest).
Proof.
  intros Hp Hdots. unfold member_target, join_paths. cbn [fold_left].
  change (parent +:+ "/faassupervisor/" +:+ rest)
    with (parent +:+ "/" +:+ "faassupervisor" +:+ "/" +:+ rest).
  rewrite (split_all_app _ _ Hp), (split_all_app "faassupervisor" rest eq_refl).
  rewrite (split_all_plain _ Hp), (startswith_slash_plain _ Hp).
  cbn [fold_left]. rewrite (enter_kept _ _ Hdots).
  change (fold_left enter (split_all "/" "faassupervisor")
            (if startswith "faassupervisor" "/" then [] else ?p))
    with (p ++ ["faassupervisor"]).
  rewrite !filter_cons, filter_nil.
  rewrite (decide_True (P := "faassupervisor" ∉ _))
    by (rewrite kept_component; done).
  destruct (decide (parent ∉ [""; "."; ".."])); cbn [app];
    by rewrite <- ?app_assoc.
Qed.

Lemma makedirs_from_dirs at_ rest f f' done_ todo :
  makedirs_from at_ rest f = Ok f' →
  rest = done_ ++ todo → done_ ≠ [] →
  f' !! (at_ ++ done_) = Some Dir.
Proof.
  revert at_ f done_. induction rest as [|x rest IH]; intros at_ f done_ Hm Hr Hne.
  { by destruct done_. }
  destruct done_ as [|y done_]; [done|]. injection Hr as -> ->.
  cbn in Hm.
  assert (Hm' : makedirs_from (at_ ++ [y]) (done_ ++ todo)
                  (<[at_ ++ [y] := Dir]> f) = Ok f')
    by (destruct (f !! (at_ ++ [y])) as [[?|]|]; [discriminate|done|done]).
  destruct done_ as [|z done_].
  - apply (makedirs_from_keeps _ _ _ _ _ _ Hm'), lookup_insert_eq.
  - rewrite (cons_middle y), app_assoc. by apply (IH _ _ _ Hm').
Qed.

Lemma extract_member_creates base m f f' at_ below :
  extract_member base m f = Ok f' →
  member_target base m.1 = at_ ++ below → at_ ≠ [] →
  is_Some (f' !! at_).
Proof.
  unfold extract_member. intros He Ht Hne.
  destruct (makedirs _ f) as [f1|e] eqn:Hm; [|discriminate].
  assert (H1 : below ≠ [] → f1 !! at_ = Some Dir).
  { intros Hb. unfold makedirs, parent_dir in Hm.
    rewrite Ht, (removelast_app _ Hb) in Hm.
    exact (makedirs_from_dirs [] _ _ _ at_ _ Hm eq_refl Hne). }
  assert (Hins : ∀ nd, is_Some (<[member_target base m.1 := nd]> f1 !! at_)).
  { intros nd. apply lookup_insert_is_Some.
    destruct (decide (member_target base m.1 = at_)) as [|Hd]; [by left|right].
    split; [done|]. destruct below as [|b below].
    - by rewrite app_nil_r in Ht.
    - rewrite H1; done. }
  destruct (endswith_slash m.1).
  - destruct (is_dir f1 _) eqn:Hd.
    + injection He as <-. destruct below as [|b below]; [|rewrite H1; done].
      rewrite app_nil_r in Ht. rewrite Ht in Hd. unfold is_dir in Hd.
      destruct at_; [done|]. destruct (f1 !! _) as [[|]|]; done.
    + destruct (path_exists f1 _); [discriminate|]. by injection He as <-.
  - unfold write_file in He. destruct (negb _); [by destruct (path_exists f1 _)|].
    destruct (is_dir f1 _); [discriminate|]. by injection He as <-.
Qed.

Lemma download_loop_creates ms names tmp p w p' w' n at_ below :
  download_loop ms names tmp p w = (Ok p', w') →
  n ∈ names → relevant n = true →
  member_target tmp n = at_ ++ below → at_ ≠ [] →
  is_Some (fs w' !! at_).
Proof.
  intros Hl Hin Hrel Ht Hne. revert p w Hl.
  induction names as [|n0 ns IH]; intros p w Hl; [by apply elem_of_nil in Hin|].
  cbn [download_loop] in Hl.
  pose proof Hrel as Hrel'. unfold relevant in Hrel'.
  destruct (split1 "/" n0) as [|a [|b [|? ?]]] eqn:Hs; try discriminate.
  unfold bind in Hl.
  destruct (decide (n = n0)) as [->|Hn0].
  - rewrite Hs in Hrel'. rewrite Hrel' in Hl. unfold zip_extract in Hl.
    destruct (getinfo ms n0) as [m|] eqn:Hg; [|discriminate].
    apply getinfo_member in Hg as [_ Hname]. unfold update_fs in Hl.
    destruct (extract_member tmp m (fs w)) as [f1|e] eqn:He; [|discriminate].
    rewrite <- Hname in Ht.
    destruct (extract_member_creates _ _ _ _ _ _ He Ht Hne) as [nd Hnd].
    destruct (download_loop_keeps ms ns tmp (Some a) (set_fs f1 w) at_)
      as [Hd Hf].
    rewrite Hl in Hd, Hf. cbn in Hd, Hf.
    destruct nd as [c|]; [destruct (Hf c Hnd) as [c' ->]|rewrite (Hd Hnd)]; done.
  - apply elem_of_cons in Hin as [?|Hin]; [done|].
    destruct (_ || _).
    + destruct (zip_extract ms n0 tmp w) as [[[]|e] w1]; [|discriminate].
      by apply (IH Hin _ _ Hl).
    + by apply (IH Hin _ _ Hl).
Qed.

Lemma download_loop_parent ms names tmp p w parent w' :
  download_loop ms names tmp p w = (Ok (Some parent), w') →
  (names = [] ∧ p = Some parent) ∨ has_slash parent = false.
Proof.
  revert p w. induction names as [|n ns IH]; intros p w Hl.
  { left. by injection Hl as -> _. }
  right. cbn [download_loop] in Hl.
  destruct (split1_shape n) as [[_ Hs]|(a & b & Hs & _ & Ha & _)];
    rewrite Hs in Hl; [discriminate|].
  unfold bind in Hl.
  match type of Hl with
  | context [?m w] =>
      match m with
      | (if _ then _ else _) => destruct (m w) as [[[]|e] w1]; [|discriminate]
      end
  end.
  destruct (IH _ _ Hl) as [[_ [= <-]]|H]; done.
Qed.

(** X14.  Fetching and moving fit together: when the download returns
    a parent folder and the archive has an entry of that folder's
    [faassupervisor/], the folder that [_copy_supervisor_files] is
    about to move is on the disk.  The parent folder that the download
    returns never contains a slash. *)
Theorem download_leaves_supervisor_folder v tmp w ms parent w' rest :
  remote w !! supervisor_zip_url v = Some (Archive ms) →
  _download_supervisor v tmp w = (Ok parent, w') →
  parent ≠ ".." →
  (parent +:+ "/faassupervisor/" +:+ rest) ∈ ms.*1 →
  has_slash parent = false
  ∧ is_Some (fs w' !! join_paths tmp [parent; "faassupervisor"]).
Proof.
  intros Hr Hd Hdots Hin.
  unfold _download_supervisor, bind at 1, get_file in Hd.
  fold (supervisor_zip_url v) in Hd. rewrite Hr in Hd.
  unfold bind at 1 in Hd. cbn [open_zip ret] in Hd. unfold bind in Hd.
  destruct (download_loop ms ms.*1 tmp None w) as [[[p|]|e] w1] eqn:Hl;
    try discriminate.
  injection Hd as -> ->.
  assert (Hp : has_slash parent = false)
    by (destruct (download_loop_parent _ _ _ _ _ _ _ Hl) as [[_ ?]|?]; done).
  split; [exact Hp|].
  eapply (download_loop_creates _ _ _ _ _ _ _ _ _ _ Hl Hin).
  - unfold relevant.
    change (parent +:+ "/faassupervisor/" +:+ rest)
      with (parent +:+ "/" +:+ "faassupervisor/" +:+ rest).
    by rewrite (split1_app _ _ Hp).
  - by apply supervisor_path_target.
  - unfold join_paths. cbn [fold_left].
    change (fold_left enter (split_all "/" "faassupervisor")
              (if startswith "faassupervisor" "/" then [] else ?p))
      with (p ++ ["faassupervisor"]).
    by intros [_ ?]%app_eq_nil.
Qed.

End Download_properties.

Section Move_properties.

Context `{U : Utils} {C : Type} `{LC : LambdaClient C}.

Implicit Types (w : world C) (f : filesystem) (p q : path).

Lemma is_prefix_spec p q : is_prefix p q = true ↔ ∃ r, q = p ++ r.
Proof.
  revert q. induction p as [|a p IH]; intros q; cbn.
  - split; [by exists q|done].
  - destruct q as [|b q]; [split; [done|by intros [r ?]]|].
    rewrite andb_true_iff, String.eqb_eq, IH. split.
    + by intros [-> [r ->]]; exists r.
    + intros [r [= -> ->]]. eauto.
Qed.

Lemma strip_prefix_spec p q r : strip_prefix p q = Some r ↔ q = p ++ r.
Proof.
  revert q. induction p as [|a p IH]; intros q; cbn.
  - split; [by intros [= ->]|by intros ->].
  - destruct q as [|b q]; [done|].
    destruct (String.eqb_spec a b) as [->|Hne].
    + rewrite IH. split; [by intros ->|by intros [= ->]].
    + split; [done|]. by intros [= -> ?].
Qed.

Lemma relocated_keys src dst (l : list (path * node)) :
  NoDup l.*1 →
  NoDup (omap (λ kv : path * node,
                 match strip_prefix src kv.1 with
                 | Some rel => Some (dst ++ rel, kv.2)
                 | None => None
                 end) l).*1.
Proof.
  induction l as [|[k nd] l IH]; cbn [fmap list_fmap omap list_omap];
    [constructor|].
  intros [Hk Hl]%NoDup_cons. specialize (IH Hl). cbn [fst snd].
  destruct (strip_prefix src k) as [rel|] eqn:Hs; [|exact IH].
  cbn [fmap list_fmap fst]. apply NoDup_cons. split; [|exact IH].
  intros ([k' nd'] & Hk' & Hin)%list_elem_of_fmap. cbn in Hk'.
  apply list_elem_of_omap in Hin as ([k2 nd2] & Hin & Hg). cbn in Hg.
  destruct (strip_prefix src k2) as [rel2|] eqn:Hs2; [|discriminate].
  injection Hg as <- <-. apply app_inv_head in Hk' as ->.
  apply strip_prefix_spec in Hs as ->. apply strip_prefix_spec in Hs2 as ->.
  apply Hk, list_elem_of_fmap. by exists (src ++ rel2, nd2).
Qed.

Lemma relocate_moved src dst f rel nd :
  f !! (src ++ rel) = Some nd → relocate src dst f !! (dst ++ rel) = Some nd.
Proof.
  intros Hf. unfold relocate. apply lookup_union_Some_l.
  apply elem_of_list_to_map_1.
  - apply relocated_keys, NoDup_fst_map_to_list.
  - apply list_elem_of_omap. exists (src ++ rel, nd). split.
    + by apply elem_of_map_to_list.
    + cbn. by rewrite (proj2 (strip_prefix_spec src (src ++ rel) rel) eq_refl).
Qed.

Lemma relocate_gone src dst f q :
  is_prefix src q = true → (∀ rel, q ≠ dst ++ rel) →
  relocate src dst f !! q = None.
Proof.
  intros Hq Hdst. unfold relocate. apply lookup_union_None. split.
  - apply not_elem_of_list_to_map_1.
    intros ([k nd] & Hk & Hin)%list_elem_of_fmap. cbn in Hk. subst k.
    apply list_elem_of_omap in Hin as ([k2 nd2] & _ & Hg). cbn in Hg.
    destruct (strip_prefix src k2) as [rel2|]; [|discriminate].
    injection Hg as Hq' _. by apply (Hdst rel2).
  - apply map_lookup_filter_None. right. intros nd _. cbn. by rewrite Hq.
Qed.

(** X15.  [_copy_supervisor_files] moves: when the extracted
    [faassupervisor] is a folder and its new place, which is not a
    folder yet, lies apart from it, every node at or below the folder
    is afterwards at the same relative place at or below
    [python/faassupervisor] of the layer code, and nothing is left at
    or below the old place. *)
Theorem copy_supervisor_moves parent tmp code w w' :
  let supervisor_path := join_paths tmp [parent; "faassupervisor"] in
  let new_path := join_paths code ["python"; "faassupervisor"] in
  _copy_supervisor_files parent tmp code w = (Ok tt, w') →
  fs w !! supervisor_path = Some Dir →
  is_dir (fs w) new_path = false →
  is_prefix new_path supervisor_path = false →
  (∀ rel nd, fs w !! (supervisor_path ++ rel) = Some nd →
             fs w' !! (new_path ++ rel) = Some nd)
  ∧ (∀ rel, fs w' !! (supervisor_path ++ rel) = None)
  ∧ fs w' !! new_path = Some Dir.
Proof.
  intros src dst Hm Hsrc Hdst Hapart.
  unfold _copy_supervisor_files, update_fs in Hm. fold src dst in Hm.
  destruct (shutil_move src dst (fs w)) as [f'|e] eqn:Hmv; [|discriminate].
  injection Hm as <-. cbn [fs set_fs].
  unfold shutil_move in Hmv. rewrite Hsrc, Hdst in Hmv.
  assert (Hne : src ≠ dst).
  { intros E. rewrite <- E in Hapart.
    by rewrite (proj2 (is_prefix_spec src src) (ex_intro _ [] (eq_sym (app_nil_r _))))
      in Hapart. }
  rewrite (bool_decide_eq_false_2 _ Hne) in Hmv. cbn [andb] in Hmv.
  destruct (path_exists (fs w) dst); [discriminate|].
  destruct (is_prefix src dst) eqn:Hinto; [discriminate|].
  destruct (makedirs (parent_dir dst) (fs w)) as [f1|e] eqn:Hmk; [|discriminate].
  injection Hmv as <-.
  assert (Hmoved : ∀ rel nd, fs w !! (src ++ rel) = Some nd →
                             relocate src dst f1 !! (dst ++ rel) = Some nd).
  { intros rel nd Hq. apply relocate_moved.
    exact (makedirs_from_keeps _ _ _ _ _ _ Hmk Hq). }
  split; [exact Hmoved|]. split.
  - intros rel. apply relocate_gone; [apply is_prefix_spec; eauto|].
    intros rel' E.
    destruct (prefix_weak_total src dst (src ++ rel)) as [[r Hr]|[r Hr]].
    + by exists rel.
    + rewrite E. by exists rel'.
    + by rewrite (proj2 (is_prefix_spec src dst) (ex_intro _ r Hr)) in Hinto.
    + by rewrite (proj2 (is_prefix_spec dst src) (ex_intro _ r Hr)) in Hapart.
  - specialize (Hmoved [] Dir). rewrite !app_nil_r in Hmoved. by apply Hmoved.
Qed.


End Move_properties.

(** * The statements at work on the reference instance *)

Import Reference.

Lemma reference_latest (version : Z) (description : option string) post :
  latest_info_is (layer_record version description :: post)
                 (AStr "faas-supervisor") (version_info version description).
Proof.
  exists [], (layer_record version description), post.
  split; [reflexivity|]. split; [constructor|].
  split; [vm_compute; reflexivity|]. unfold layer_record. by simplify_map_eq.
Qed.

Lemma reference_publish_listed (props : dict) cl v cl' :
  publish_layer_version props cl = (Ok v, cl') →
  props !! "LayerName" = Some (PAtom (AStr (layer_name supervisor))) →
  props !! "Description" = Some (PAtom (AStr (supervisor_version supervisor))) →
  ∃ layers info,
    list_layers cl' = Ok layers
    ∧ latest_info_is layers (AStr (layer_name supervisor)) info
    ∧ info !! "Description" = Some (AStr (supervisor_version supervisor)).
Proof.
  cbn. unfold publish. destruct (out_of_service cl); [discriminate|].
  intros [= <- <-] Hn Hd. eexists _, _. split; [reflexivity|].
  unfold dict_get. rewrite Hn, Hd. cbn. split.
  - eexists [], _, _. split; [reflexivity|]. split; [constructor|].
    split; [vm_compute; reflexivity | by simplify_map_eq].
  - by simplify_map_eq.
Qed.

(** In the nameless registry [exists] denies the empty name, although
    the second listed record has exactly that name: the scan stops at
    the first record, which is empty. *)
Lemma exists_false_though_named :
  list_layers (client world_nameless)
    = Ok [∅; {[ "LayerName" := PAtom (AStr "") ]}]
  ∧ (exists_ (AStr "") world_nameless).1 = Ok false
  ∧ ({[ "LayerName" := PAtom (AStr "") ]} : dict) !! "LayerName"
      = Some (PAtom (AStr "")).
Proof. split; [reflexivity|]. split; by vm_compute. Qed.

Lemma listing_stale :
  list_layers (client world_stale) = Ok [layer_record 3 (Some "1.4.0")].
Proof. reflexivity. Qed.

Lemma listing_absent : list_layers (client world_absent) = Ok [].
Proof. reflexivity. Qed.

Lemma exists_iff_find_nonempty_witness :
  list_layers (client world_stale) = Ok [layer_record 3 (Some "1.4.0")]
  ∧ (exists_ (AStr "faas-supervisor") world_stale).1 = Ok true
  ∧ ((exists_ (AStr "") world_nameless).1 = Ok false
     ↔ absent [∅; {[ "LayerName" := PAtom (AStr "") ]}] (AStr "")
       ∨ (PAtom (AStr "") = PAtom (AStr "")
          ∧ ∃ pre post, [∅; {[ "LayerName" := PAtom (AStr "") ]}] = pre ++ ∅ :: post
              ∧ absent pre (AStr ""))).
Proof.
  split; [reflexivity|]. split.
  - apply (exists_iff_find_nonempty (AStr "faas-supervisor") world_stale
             [layer_record 3 (Some "1.4.0")] listing_stale).
    exists (layer_record 3 (Some "1.4.0")). split; [reflexivity|].
    intros H. apply (f_equal (λ d : dict, d !! "LayerName")) in H.
    vm_compute in H. discriminate.
  - assert (Hl : list_layers (client world_nameless)
                 = Ok [∅; {[ "LayerName" := PAtom (AStr "") ]}]) by reflexivity.
    apply (exists_iff_find_nonempty (AStr "") world_nameless _ Hl).
Defined.

Lemma latest_arn_absent_or_exact_witness :
  get_latest_supervisor_layer_arn supervisor world_absent
    = (Ok (PAtom (AStr "")), listed world_absent)
  ∧ get_latest_supervisor_layer_arn supervisor world_stale
    = (Ok (PAtom (AStr "arn:aws:lambda:layer")), listed world_stale).
Proof.
  split.
  - apply (latest_arn_absent_or_exact supervisor world_absent [] listing_absent).
    constructor.
  - destruct (latest_arn_absent_or_exact supervisor world_stale
                [layer_record 3 (Some "1.4.0")] listing_stale) as [_ H].
    apply (H (version_info 3 (Some "1.4.0")));
      [apply reference_latest | vm_compute; reflexivity].
Defined.

Lemma delete_resolves_version_witness :
  (let kwargs : dict := {[ "name" := PAtom (AStr "faas-supervisor") ]} in
   calls (delete_ kwargs world_stale).2
     = [ListLayers;
        DeleteLayerVersion (<[ "VersionNumber" := PAtom (AInt 3) ]>
                              {[ "LayerName" := PAtom (AStr "faas-supervisor") ]})]
   ∧ calls (delete_ kwargs world_absent).2
     = [ListLayers;
        DeleteLayerVersion (<[ "VersionNumber" := PAtom (AInt (-1)) ]>
                              {[ "LayerName" := PAtom (AStr "faas-supervisor") ]})])
  ∧ (let kwargs : dict :=
       {[ "name" := PAtom (AStr "faas-supervisor"); "version" := PAtom (AInt 2) ]} in
     calls (delete_ kwargs world_stale).2
       = [DeleteLayerVersion (<[ "VersionNumber" := PAtom (AInt 2) ]>
                                {[ "LayerName" := PAtom (AStr "faas-supervisor") ]})]).
Proof.
  assert (Hname : ({[ "name" := PAtom (AStr "faas-supervisor") ]} : dict) !! "name"
                  = Some (PAtom (AStr "faas-supervisor"))) by reflexivity.
  assert (Hnov : ({[ "name" := PAtom (AStr "faas-supervisor") ]} : dict) !! "version"
                 = None) by reflexivity.
  assert (Hname2 : ({[ "name" := PAtom (AStr "faas-supervisor");
                       "version" := PAtom (AInt 2) ]} : dict) !! "name"
                   = Some (PAtom (AStr "faas-supervisor")))
    by (vm_compute; reflexivity).
  assert (Hver2 : ({[ "name" := PAtom (AStr "faas-supervisor");
                      "version" := PAtom (AInt 2) ]} : dict) !! "version"
                  = Some (PAtom (AInt 2))) by (vm_compute; reflexivity).
  split; [split|].
  - destruct (delete_resolves_version _ _ world_stale Hname) as [H _].
    destruct (H Hnov _ listing_stale) as [H1 _].
    cbn zeta. rewrite (H1 _ (reference_latest 3 (Some "1.4.0") [])).
    vm_compute. reflexivity.
  - destruct (delete_resolves_version _ _ world_absent Hname) as [H _].
    destruct (H Hnov _ listing_absent) as [_ H2].
    cbn zeta. rewrite (H2 (List.Forall_nil _)). vm_compute. reflexivity.
  - destruct (delete_resolves_version _ _ world_stale Hname2) as [_ H].
    destruct (H (PAtom (AInt 2)) 2 Hver2 (or_introl eq_refl)) as [_ H3]. exact H3.
Defined.

Lemma delete_coerces_version_witness :
  (let kwargs : dict :=
     {[ "name" := PAtom (AStr "faas-supervisor"); "version" := PAtom (AStr "7") ]} in
   calls (delete_ kwargs world_stale).2
     = [DeleteLayerVersion (<[ "VersionNumber" := PAtom (AInt 7) ]>
                              {[ "LayerName" := PAtom (AStr "faas-supervisor") ]})])
  ∧ (let kwargs : dict :=
       {[ "name" := PAtom (AStr "faas-supervisor");
          "version" := PAtom (AStr "latest") ]} in
     delete_ kwargs world_stale
       = (Raise (ValueError "invalid literal for int()"), world_stale)).
Proof.
  assert (Hname : ∀ v : pyval,
            ({[ "name" := PAtom (AStr "faas-supervisor"); "version" := v ]} : dict)
              !! "name" = Some (PAtom (AStr "faas-supervisor")))
    by (intros v; by simplify_map_eq).
  assert (Hver : ∀ v : pyval,
            ({[ "name" := PAtom (AStr "faas-supervisor"); "version" := v ]} : dict)
              !! "version" = Some v)
    by (intros v; by simplify_map_eq).
  split.
  - destruct (delete_coerces_version _ _ _ world_stale (Hname (AStr "7"))
                (Hver (AStr "7"))) as [H _].
    cbn zeta. rewrite (H 7 eq_refl). vm_compute. reflexivity.
  - destruct (delete_coerces_version _ _ _ world_stale (Hname (AStr "latest"))
                (Hver (AStr "latest"))) as [_ H].
    apply (H _ eq_refl).
Defined.

(** With a file under [extras/] in the release, the download extracts
    it, although its path after the top-level folder begins neither
    with [extra/] nor with [faassupervisor/]. *)
Lemma download_extracts_sibling :
  let w := world_with release_with_sibling (Registry [] false) in
  let r := _download_supervisor "1.5.0" ["tmp"; "tmp0"] w in
  r.1 = Ok "faas-supervisor-1.5.0"
  ∧ fs r.2 !! ["tmp"; "tmp0"; "faas-supervisor-1.5.0"; "extras"; "notes.txt"]
      = Some (File (Data "n"))
  ∧ spec_relevant "faas-supervisor-1.5.0/extras/notes.txt" = false.
Proof. repeat split; vm_compute; reflexivity. Qed.

(** With the registry out of service, the publication raises after the
    packaging succeeded, and the output archive is still on disk when
    [_create_layer] has raised. *)
Lemma archive_left_when_publish_fails :
  let r := _create_layer supervisor world_out_of_service in
  r.1 = Raise (ClientError "ServiceException")
  ∧ fs r.2 !! ["tmp"; "faas-supervisor.zip"]
      = Some (File (Archive [ ("python/faassupervisor/a.py", Data "A");
                              ("b.txt", Data "B") ])).
Proof. split; vm_compute; reflexivity. Qed.

(** An archive without entries, and an archive whose entry has no
    top-level folder, make the download fail with built-in errors of
    Python, not with an [ArchiveFormatError]. *)
Lemma download_raises_builtin_errors :
  let empty := world_with (Archive []) (Registry [] false) in
  let flat := world_with release_flat (Registry [] false) in
  (_download_supervisor "1.5.0" ["tmp"; "tmp0"] empty).1
    = Raise (UnboundLocalError "parent_folder")
  ∧ (_download_supervisor "1.5.0" ["tmp"; "tmp0"] flat).1
    = Raise (ValueError "not enough values to unpack (expected 2, got 1)")
  ∧ (_download_supervisor "1.5.0" ["tmp"; "tmp0"] empty).1
    ≠ Raise ArchiveFormatError
  ∧ (_download_supervisor "1.5.0" ["tmp"; "tmp0"] flat).1
    ≠ Raise ArchiveFormatError.
Proof.
  cbn zeta. split; [vm_compute; reflexivity|]. split; [vm_compute; reflexivity|].
  split; vm_compute; discriminate.
Qed.

Lemma check_three_outcomes_witness :
  publishes_once supervisor (listed world_absent)
    (check_faas_supervisor_layer supervisor world_absent).2
  ∧ publishes_once supervisor (listed world_undescribed)
      (check_faas_supervisor_layer supervisor world_undescribed).2
  ∧ publishes_once supervisor (listed world_stale)
      (check_faas_supervisor_layer supervisor world_stale).2
  ∧ calls (check_faas_supervisor_layer supervisor world_current).2
      = [ListLayers].
Proof.
  split; [|split; [|split]].
  - destruct (check_three_outcomes supervisor world_absent [] listing_absent)
      as [H _].
    destruct (H (or_introl (List.Forall_nil _))) as [_ [Hp _]].
    apply Hp. vm_compute. reflexivity.
  - assert (Hl : list_layers (client world_undescribed)
                 = Ok [layer_record 3 None]) by reflexivity.
    destruct (check_three_outcomes supervisor world_undescribed _ Hl) as [H _].
    destruct H as [_ [Hp _]].
    + right. exists (version_info 3 None).
      split; [apply reference_latest | vm_compute; reflexivity].
    + apply Hp. vm_compute. reflexivity.
  - destruct (check_three_outcomes supervisor world_stale _ listing_stale)
      as [_ H].
    destruct (H (version_info 3 (Some "1.4.0")) (AStr "1.4.0")) as [Hu _].
    + apply reference_latest.
    + vm_compute. reflexivity.
    + destruct (Hu (-1)) as [_ [Hp _]]; [vm_compute; reflexivity | lia |].
      apply Hp. vm_compute. reflexivity.
  - assert (Hl : list_layers (client world_current)
                 = Ok [layer_record 4 (Some "1.5.0")]) by reflexivity.
    destruct (check_three_outcomes supervisor world_current _ Hl) as [_ H].
    destruct (H (version_info 4 (Some "1.5.0")) (AStr "1.5.0")) as (_ & Hc & _).
    + apply reference_latest.
    + vm_compute. reflexivity.
    + destruct (Hc 0) as (_ & Hk & _); [vm_compute; reflexivity | lia |].
      exact Hk.
Defined.

Lemma packaged_archive_layout_witness :
  ∃ (props : dict) w1,
    package_layer supervisor world_absent = (Ok props, w1)
    ∧ fs w1 !! ["tmp"; "tmp1"; "python"; "faassupervisor"; "a.py"]
        = Some (File (Data "A"))
    ∧ fs w1 !! ["tmp"; "tmp0"; "faas-supervisor-1.5.0"; "faassupervisor"; "a.py"]
        = None
    ∧ fs w1 !! ["tmp"; "tmp1"; "b.txt"] = Some (File (Data "B"))
    ∧ files_below ["tmp"; "tmp1"] (fs w1)
        ≡ₚ [ (["python"; "faassupervisor"; "a.py"], Data "A");
             (["b.txt"], Data "B") ]
    ∧ fs w1 !! ["tmp"; "faas-supervisor.zip"]
        = Some (File (Archive [ ("python/faassupervisor/a.py", Data "A");
                                ("b.txt", Data "B") ]))
    ∧ props !! "Content"
        = Some (PDict {[ "ZipFile" :=
             ABytes (Archive [ ("python/faassupervisor/a.py", Data "A");
                               ("b.txt", Data "B") ]) ]})
    ∧ calls (_create_layer supervisor world_absent).2
        = calls world_absent ++ [PublishLayerVersion props].
Proof.
  apply (packaged_archive_layout supervisor world_absent (Data "A") (Data "B"));
    vm_compute; reflexivity.
Defined.

Lemma download_extracts_by_prefix_witness :
  _download_supervisor "1.5.0" ["tmp"; "tmp0"] world_absent
  = (run for_each
           (List.filter relevant
              [ "faas-supervisor-1.5.0/faassupervisor/a.py";
                "faas-supervisor-1.5.0/extra/bundle.zip" ])
           (λ file,
              zip_extract
                [ ("faas-supervisor-1.5.0/faassupervisor/a.py", Data "A");
                  ("faas-supervisor-1.5.0/extra/bundle.zip",
                   Archive [("b.txt", Data "B")]) ]
                file ["tmp"; "tmp0"]) in
     ret (top_folder "faas-supervisor-1.5.0/extra/bundle.zip")) world_absent.
Proof.
  apply (download_extracts_by_prefix "1.5.0" ["tmp"; "tmp0"] world_absent
           [ ("faas-supervisor-1.5.0/faassupervisor/a.py", Data "A");
             ("faas-supervisor-1.5.0/extra/bundle.zip",
              Archive [("b.txt", Data "B")]) ]
           "faas-supervisor-1.5.0/extra/bundle.zip").
  - vm_compute. reflexivity.
  - reflexivity.
  - repeat constructor; eexists _, _; vm_compute; reflexivity.
Defined.

Lemma returns_ok {W A : Type} (r : result A * W) (a : A) :
  r.1 = Ok a → r = (Ok a, r.2).
Proof. destruct r as [r w]. cbn. by intros ->. Qed.

Lemma output_archive_after_attempt_witness :
  fs (_create_layer supervisor world_absent).2 !! layer_zip_path_of supervisor
    = None
  ∧ ∃ w2 zip_file,
      _create_layer supervisor world_out_of_service
        = (Raise (ClientError "ServiceException"), w2)
      ∧ fs w2 !! layer_zip_path_of supervisor = Some (File zip_file).
Proof.
  split.
  - destruct (output_archive_after_attempt supervisor world_absent) as [H _].
    apply (H (_create_layer supervisor world_absent).2). apply returns_ok.
    vm_compute. reflexivity.
  - destruct (output_archive_after_attempt supervisor world_out_of_service)
      as (_ & H & _).
    destruct (H {[ "LayerName" := PAtom (AStr "faas-supervisor");
                   "Description" := PAtom (AStr "1.5.0");
                   "Content" := PDict {[ "ZipFile" :=
                      ABytes (Archive [ ("python/faassupervisor/a.py", Data "A");
                                        ("b.txt", Data "B") ]) ]};
                   "LicenseInfo" := PAtom (AStr "Apache 2.0") ]}
                (package_layer supervisor world_out_of_service).2
                (ClientError "ServiceException") (Registry [] true))
      as (w2 & z & Hr & Hz & _).
    + apply returns_ok. vm_compute. reflexivity.
    + vm_compute. reflexivity.
    + exists w2, z. split; assumption.
Defined.

Lemma check_twice_publishes_once_witness :
  let w1 := (check_faas_supervisor_layer supervisor world_stale).2 in
  check_faas_supervisor_layer supervisor w1
    = (Ok tt, logged (using_existent supervisor) (listed w1))
  ∧ (length (List.filter is_publish
               (calls (check_faas_supervisor_layer supervisor w1).2))
     ≤ length (List.filter is_publish (calls world_stale)) + 1)%nat.
Proof.
  apply (check_twice_publishes_once supervisor world_stale).
  - exists 0. split; [vm_compute; reflexivity | lia].
  - apply reference_publish_listed.
  - apply returns_ok. vm_compute. reflexivity.
Defined.

Lemma download_failures_witness :
  _download_supervisor "1.5.0" ["tmp"; "tmp0"] world_offline
    = (Raise (FetchError (supervisor_zip_url "1.5.0")), world_offline)
  ∧ (let w := world_with (Data "not a zip") (Registry [] false) in
     _download_supervisor "1.5.0" ["tmp"; "tmp0"] w = (Raise BadZipFile, w))
  ∧ (let w := world_with (Archive []) (Registry [] false) in
     _download_supervisor "1.5.0" ["tmp"; "tmp0"] w
       = (Raise (UnboundLocalError "parent_folder"), w))
  ∧ (let w := world_with release_flat (Registry [] false) in
     _download_supervisor "1.5.0" ["tmp"; "tmp0"] w
       = (Raise (ValueError "not enough values to unpack (expected 2, got 1)"),
          w)).
Proof.
  split; [|split; [|split]]; cbn zeta.
  - destruct (download_failures "1.5.0" ["tmp"; "tmp0"] world_offline)
      as (H & _).
    apply H. vm_compute. reflexivity.
  - destruct (download_failures "1.5.0" ["tmp"; "tmp0"]
                (world_with (Data "not a zip") (Registry [] false)))
      as (_ & H & _).
    apply (H "not a zip"). vm_compute. reflexivity.
  - destruct (download_failures "1.5.0" ["tmp"; "tmp0"]
                (world_with (Archive []) (Registry [] false)))
      as (_ & _ & H & _).
    apply H. vm_compute. reflexivity.
  - destruct (download_failures "1.5.0" ["tmp"; "tmp0"]
                (world_with release_flat (Registry [] false)))
      as (_ & _ & _ & H & _).
    apply (H "README" (Data "r") []).
    + vm_compute. reflexivity.
    + intros (a & b & Hs). vm_compute in Hs. discriminate.
Defined.

(** * The further properties at work on the reference instance *)

Import Scenarios.

Lemma listing_error_propagates_witness :
  exists_ (LC:=Unreachable.lambda_client) (AStr "faas-supervisor")
      Unreachable.world_unreachable
    = (Raise (ClientError "EndpointConnectionError"),
       listed Unreachable.world_unreachable)
  ∧ check_faas_supervisor_layer (LC:=Unreachable.lambda_client) supervisor
      Unreachable.world_unreachable
    = (Raise (ClientError "EndpointConnectionError"),
       listed Unreachable.world_unreachable).
Proof.
  destruct (listing_error_propagates (LC:=Unreachable.lambda_client)
              supervisor ∅ (AStr "faas-supervisor")
              Unreachable.world_unreachable
              (ClientError "EndpointConnectionError") eq_refl)
    as (H1 & _ & _ & H4 & _).
  split; assumption.
Defined.

Lemma listing_unversioned :
  list_layers (client world_unversioned)
  = Ok [ {[ "LayerName" := PAtom (AStr "faas-supervisor") ]} ].
Proof. reflexivity. Qed.

Lemma missing_latest_version_raises_witness :
  exists_ (AStr "faas-supervisor") world_unversioned
    = (Ok true, listed world_unversioned)
  ∧ check_faas_supervisor_layer supervisor world_unversioned
    = (Raise (KeyError "LatestMatchingVersion"), listed world_unversioned).
Proof.
  assert (Hne : ({[ "LayerName" := PAtom (AStr "faas-supervisor") ]} : dict) ≠ ∅).
  { intros H. apply (f_equal (λ d : dict, d !! "LayerName")) in H.
    vm_compute in H. discriminate. }
  assert (Hans : answers_to (AStr "faas-supervisor")
                   {[ "LayerName" := PAtom (AStr "faas-supervisor") ]})
    by (vm_compute; reflexivity).
  assert (Hv : ({[ "LayerName" := PAtom (AStr "faas-supervisor") ]} : dict)
               !! "LatestMatchingVersion" = None)
    by (vm_compute; reflexivity).
  destruct (missing_latest_version_raises supervisor ∅ world_unversioned
              [ {[ "LayerName" := PAtom (AStr "faas-supervisor") ]} ] []
              {[ "LayerName" := PAtom (AStr "faas-supervisor") ]} []
              listing_unversioned eq_refl (List.Forall_nil _) Hans Hne Hv)
    as (H1 & _ & _ & H4 & _).
  split; assumption.
Defined.

Lemma listing_twice :
  list_layers (client world_twice)
  = Ok [ layer_record 3 (Some "1.4.0"); layer_record 7 (Some "1.5.0") ].
Proof. reflexivity. Qed.

Lemma find_returns_first_witness :
  _find (AStr "faas-supervisor") world_twice
  = (Ok (layer_record 3 (Some "1.4.0")), listed world_twice).
Proof.
  assert (Hans : answers_to (AStr "faas-supervisor")
                   (layer_record 3 (Some "1.4.0")))
    by (vm_compute; reflexivity).
  destruct (find_returns_first (AStr "faas-supervisor") world_twice _
              listing_twice) as (layer & Hf & _ & Hfirst).
  assert (E : layer = layer_record 3 (Some "1.4.0"))
    by exact (Hfirst [] _ [layer_record 7 (Some "1.5.0")] [] eq_refl
                (List.Forall_nil _) Hans).
  subst layer. exact Hf.
Defined.

Lemma listing_no_arn :
  list_layers (client world_no_arn)
  = Ok [ {[ "LayerName" := PAtom (AStr "faas-supervisor");
            "LatestMatchingVersion" := PDict {[ "Version" := AInt 3 ]} ]} ].
Proof. reflexivity. Qed.

Lemma latest_arn_defaults_witness :
  get_latest_supervisor_layer_arn supervisor world_no_arn
  = (Ok (PAtom (AStr "")), listed world_no_arn).
Proof.
  apply (latest_arn_defaults supervisor world_no_arn _
           {[ "Version" := AInt 3 ]} listing_no_arn).
  - exists [],
      {[ "LayerName" := PAtom (AStr "faas-supervisor");
         "LatestMatchingVersion" := PDict {[ "Version" := AInt 3 ]} ]}, [].
    split; [reflexivity|]. split; [constructor|].
    split; vm_compute; reflexivity.
  - vm_compute. reflexivity.
Defined.

Lemma delete_call_discipline_witness :
  delete_ ∅ world_stale = (Raise (KeyError "name"), world_stale).
Proof.
  destruct (delete_call_discipline ∅ world_stale) as (_ & _ & H).
  apply H. vm_compute. reflexivity.
Defined.

Lemma split_at_first_slash_witness :
  "faas-supervisor-1.5.0/extra/bundle.zip"
    = "faas-supervisor-1.5.0" +:+ "/" +:+ "extra/bundle.zip"
  ∧ has_slash "faas-supervisor-1.5.0" = false.
Proof.
  destruct (split_at_first_slash "faas-supervisor-1.5.0/extra/bundle.zip")
    as (_ & _ & H).
  apply (H "faas-supervisor-1.5.0" "extra/bundle.zip").
  vm_compute. reflexivity.
Defined.

Lemma download_only_adds_witness :
  fs (_download_supervisor "1.5.0" ["tmp"; "tmp0"] world_extracted).2
    !! ["tmp"; "tmp1"] = Some Dir.
Proof.
  destruct (download_only_adds "1.5.0" ["tmp"; "tmp0"] world_extracted)
    as (H & _).
  apply H. vm_compute. reflexivity.
Defined.

Lemma download_stops_at_flat_entry_witness :
  let w := world_with (Archive release_broken) (Registry [] false) in
  _download_supervisor "1.5.0" ["tmp"; "tmp0"] w
  = (run for_each
           (List.filter relevant ["faas-supervisor-1.5.0/faassupervisor/a.py"])
           (λ file, zip_extract release_broken file ["tmp"; "tmp0"]) in
     raise (ValueError "not enough values to unpack (expected 2, got 1)")) w
  ∧ ∃ e, (_download_supervisor "1.5.0" ["tmp"; "tmp0"] w).1 = Raise e.
Proof.
  apply (download_stops_at_flat_entry "1.5.0" ["tmp"; "tmp0"]
           (world_with (Archive release_broken) (Registry [] false))
           release_broken
           ["faas-supervisor-1.5.0/faassupervisor/a.py"] "README"
           ["faas-supervisor-1.5.0/extra/bundle.zip"]).
  - vm_compute. reflexivity.
  - reflexivity.
  - repeat constructor.
    exists "faas-supervisor-1.5.0", "faassupervisor/a.py".
    vm_compute. reflexivity.
  - intros (a & b & H). vm_compute in H. discriminate.
Defined.

Lemma irrelevant_release_fails_at_move_witness :
  let w := world_with (Archive release_docs) (Registry [] false) in
  (let* parent_folder := _download_supervisor "1.5.0" ["tmp"; "tmp0"] in
   _copy_supervisor_files parent_folder ["tmp"; "tmp0"] ["tmp"; "tmp1"]) w
  = (Raise (FileNotFoundError
              ["tmp"; "tmp0"; "faas-supervisor-1.5.0"; "faassupervisor"]), w).
Proof.
  destruct (irrelevant_release_fails_at_move "1.5.0" ["tmp"; "tmp0"]
              ["tmp"; "tmp1"]
              (world_with (Archive release_docs) (Registry [] false))
              release_docs "faas-supervisor-1.5.0/README.md")
    as [_ H].
  - vm_compute. reflexivity.
  - reflexivity.
  - repeat constructor.
    exists "faas-supervisor-1.5.0", "README.md". vm_compute. reflexivity.
  - vm_compute. reflexivity.
  - vm_compute. reflexivity.
  - exact H.
Defined.

Lemma download_leaves_supervisor_folder_witness :
  has_slash "faas-supervisor-1.5.0" = false
  ∧ is_Some (fs (_download_supervisor "1.5.0" ["tmp"; "tmp0"] world_absent).2
               !! join_paths ["tmp"; "tmp0"]
                    ["faas-supervisor-1.5.0"; "faassupervisor"]).
Proof.
  apply (download_leaves_supervisor_folder "1.5.0" ["tmp"; "tmp0"] world_absent
           [ ("faas-supervisor-1.5.0/faassupervisor/a.py", Data "A");
             ("faas-supervisor-1.5.0/extra/bundle.zip",
              Archive [("b.txt", Data "B")]) ]
           "faas-supervisor-1.5.0"
           (_download_supervisor "1.5.0" ["tmp"; "tmp0"] world_absent).2
           "a.py").
  - vm_compute. reflexivity.
  - apply returns_ok. vm_compute. reflexivity.
  - discriminate.
  - apply list_elem_of_here.
Defined.

Lemma copy_supervisor_moves_witness :
  let w' := (_copy_supervisor_files "faas-supervisor-1.5.0" ["tmp"; "tmp0"]
               ["tmp"; "tmp1"] world_extracted).2 in
  fs w' !! (join_paths ["tmp"; "tmp1"] ["python"; "faassupervisor"] ++ ["a.py"])
    = Some (File (Data "A"))
  ∧ fs w' !! (join_paths ["tmp"; "tmp0"]
                ["faas-supervisor-1.5.0"; "faassupervisor"] ++ ["a.py"]) = None.
Proof.
  destruct (copy_supervisor_moves "faas-supervisor-1.5.0" ["tmp"; "tmp0"]
              ["tmp"; "tmp1"] world_extracted
              (_copy_supervisor_files "faas-supervisor-1.5.0" ["tmp"; "tmp0"]
                 ["tmp"; "tmp1"] world_extracted).2)
    as (Hmoved & Hgone & _).
  - apply returns_ok. vm_compute. reflexivity.
  - vm_compute. reflexivity.
  - vm_compute. reflexivity.
  - vm_compute. reflexivity.
  - split.
    + apply (Hmoved ["a.py"] (File (Data "A"))). vm_compute. reflexivity.
    + apply (Hgone ["a.py"]).
Defined.

Lemma listing_null_version :
  list_layers (client world_null_version)
  = Ok [ {[ "LayerName" := PAtom (AStr "faas-supervisor");
            "LatestMatchingVersion" := PAtom ANone ]} ].
Proof. reflexivity. Qed.

Lemma latest_version_not_a_dict_witness :
  get_latest_supervisor_layer_arn supervisor world_null_version
    = (Raise (AttributeError "get"), listed world_null_version)
  ∧ check_faas_supervisor_layer supervisor world_null_version
    = _create_supervisor_layer supervisor (listed world_null_version).
Proof.
  destruct (latest_version_not_a_dict supervisor ∅ world_null_version
              [ {[ "LayerName" := PAtom (AStr "faas-supervisor");
                   "LatestMatchingVersion" := PAtom ANone ]} ]
              ANone listing_null_version)
    as (H1 & _ & H3).
  - vm_compute. reflexivity.
  - split; [exact H1 | exact (H3 eq_refl)].
Defined.
